(** * leanvox-node: the request engine, its error taxonomy and the job poller

    A shallow embedding of [src/errors.ts] (the typed errors and
    [raiseForStatus]), [src/http.ts] ([HTTPClient.request],
    [HTTPClient.requestStream], [HTTPClient.upload]) and of
    [Leanvox.generateAsyncAndPoll] from [src/client.ts], followed by the
    properties of the specification that concern them.

    Conventions.  JavaScript numbers that the code only uses as integers
    (HTTP status, attempt index, retry budget, milliseconds) are [Z];
    numbers that are only carried inside a JSON body are [Q].  Strings are
    [string].  [undefined] is a value of its own, distinct from [null]. *)

From Stdlib Require Import ZArith QArith List String Ascii Bool Lia.
From Stdlib Require Import DecimalString.
Import ListNotations.

Local Open Scope string_scope.
Local Open Scope Z_scope.

Set Warnings "-register-all".

(** ** JavaScript values, as far as a JSON body can hold them *)

Module JS.

Inductive value : Type :=
| VUndefined
| VNull
| VBool (b : bool)
| VNum (q : Q)
| VStr (s : string)
| VArr (items : list value)
| VObj (fields : list (string * value)).

(** Own-property lookup in an object literal. *)
Fixpoint lookup (key : string) (fields : list (string * value)) : value :=
  match fields with
  | [] => VUndefined
  | (k, v) :: rest => if String.eqb k key then v else lookup key rest
  end.

(** [v?.key]: [undefined] on [undefined] and [null]; the property of an
    object; [undefined] on primitives and arrays, which carry none of the
    property names read by this code. *)
Definition opt_get (v : value) (key : string) : value :=
  match v with
  | VObj fields => lookup key fields
  | _ => VUndefined
  end.

(** [v ?? d]. *)
Definition nullish (v d : value) : value :=
  match v with
  | VUndefined | VNull => d
  | _ => v
  end.

(** A parameter with a default value: the default applies to [undefined]
    only. *)
Definition default_param (v d : value) : value :=
  match v with
  | VUndefined => d
  | _ => v
  end.

(** [`${n}`] for an integer. *)
Definition show_Z (n : Z) : string := NilZero.string_of_int (Z.to_int n).

End JS.
Import JS.

(** ** errors.ts *)

Module Errors.

(** The class of a thrown error; the two subclasses with a field of their
    own carry it. *)
Inductive ErrorClass : Type :=
| LeanvoxErrorClass
| InvalidRequestErrorClass
| AuthenticationErrorClass
| InsufficientBalanceErrorClass (balanceCents : value)
| NotFoundErrorClass
| RateLimitErrorClass (retryAfter : value)
| ServerErrorClass
| StreamingFormatErrorClass.

(** The fields every [LeanvoxError] has.  [message] is the value handed to
    the constructor of [Error], which stores its conversion to a string:
    the value itself when it is a string. *)
Record LeanvoxError : Type := mkError {
  class : ErrorClass;
  message : value;
  code : value;
  statusCode : Z;
  body : value
}.

Definition new_LeanvoxError (message code : value) (statusCode : Z) (body : value)
  : LeanvoxError :=
  mkError LeanvoxErrorClass message code statusCode body.

Definition new_InvalidRequestError (message code body : value) : LeanvoxError :=
  mkError InvalidRequestErrorClass message
          (default_param code (VStr "invalid_request")) 400 body.

Definition new_AuthenticationError (message code body : value) : LeanvoxError :=
  mkError AuthenticationErrorClass message
          (default_param code (VStr "invalid_api_key")) 401 body.

Definition new_InsufficientBalanceError (message code body balanceCents : value)
  : LeanvoxError :=
  mkError (InsufficientBalanceErrorClass balanceCents) message
          (default_param code (VStr "insufficient_balance")) 402 body.

Definition new_NotFoundError (message code body : value) : LeanvoxError :=
  mkError NotFoundErrorClass message
          (default_param code (VStr "not_found")) 404 body.

Definition new_RateLimitError (message code body retryAfter : value) : LeanvoxError :=
  mkError (RateLimitErrorClass retryAfter) message
          (default_param code (VStr "rate_limit_exceeded")) 429 body.

Definition new_ServerError (message code body : value) : LeanvoxError :=
  mkError ServerErrorClass message
          (default_param code (VStr "server_error")) 500 body.

Definition new_StreamingFormatError (message : value) : LeanvoxError :=
  let e := new_InvalidRequestError
             (default_param message (VStr "Streaming is only supported for MP3 format"))
             (VStr "streaming_format_error") VUndefined in
  mkError StreamingFormatErrorClass (Errors.message e) (code e) (statusCode e) (body e).

(** [STATUS_MAP]: the constructor registered for a status, if any. *)
Definition STATUS_MAP (status : Z) : option (value -> value -> value -> LeanvoxError) :=
  if status =? 400 then Some new_InvalidRequestError
  else if status =? 401 then Some new_AuthenticationError
  else if status =? 404 then Some new_NotFoundError
  else if status =? 500 then Some new_ServerError
  else None.

(** [raiseForStatus] never returns: the result is the error it throws. *)
Definition raiseForStatus (status : Z) (body : value) : LeanvoxError :=
  let errData := opt_get body "error" in
  let message :=
    nullish (opt_get errData "message")
            (VStr ("API error (status " ++ show_Z status ++ ")")) in
  let code := nullish (opt_get errData "code") (VStr "unknown") in
  if status =? 402 then
    new_InsufficientBalanceError message code body (opt_get errData "balance_cents")
  else if status =? 429 then
    new_RateLimitError message code body (opt_get errData "retry_after")
  else
    match STATUS_MAP status with
    | Some ErrorClass => ErrorClass message code body
    | None => new_LeanvoxError message code status body
    end.

End Errors.
Import Errors.

(** ** Computations that change a world and may throw *)

Module Eff.

(** What is thrown: one of the typed errors, or anything else. *)
Inductive Exn : Type :=
| LeanvoxExn (e : LeanvoxError)
| OtherExn (description : string).

Inductive Completion (A : Type) : Type :=
| Normal (a : A)
| Abrupt (x : Exn).
Arguments Normal {A} a.
Arguments Abrupt {A} x.

Definition M (W A : Type) : Type := W -> Completion A * W.

Definition ret {W A : Type} (a : A) : M W A := fun w => (Normal a, w).

Definition bind {W A B : Type} (m : M W A) (k : A -> M W B) : M W B :=
  fun w =>
    match m w with
    | (Normal a, w') => k a w'
    | (Abrupt x, w') => (Abrupt x, w')
    end.

Definition throw {W A : Type} (x : Exn) : M W A := fun w => (Abrupt x, w).

Definition try_catch {W A : Type} (m : M W A) (handler : Exn -> M W A) : M W A :=
  fun w =>
    match m w with
    | (Normal a, w') => (Normal a, w')
    | (Abrupt x, w') => handler x w'
    end.

Declare Scope eff_scope.
Delimit Scope eff_scope with eff.
Notation "x <- m ;; k" := (bind m (fun x => k))
  (at level 61, m at next level, right associativity) : eff_scope.
Notation "m ;; k" := (bind m (fun _ => k))
  (at level 61, right associativity) : eff_scope.

End Eff.
Import Eff.
Local Open Scope eff_scope.

(** ** http.ts *)

Module Http.

Definition RETRYABLE_STATUS_CODES : list Z := [429; 500; 502; 503; 504].
Definition BACKOFF_SCHEDULE : list Z := [1000; 2000; 4000].

Record HTTPClient : Type := mkClient {
  baseUrl : string;
  apiKey : string;
  timeout : Z;
  maxRetries : Z
}.

(** *** What one [fetch] can answer *)

(** [response.json()]: the parsed body, or the message of the error it
    throws when the body is not JSON. *)
Inductive JsonOutcome : Type :=
| Parsed (v : value)
| Unparsable (description : string).

(** A [Headers] object: names are kept in lower case. *)
Definition Headers : Type := list (string * string).

Record Response : Type := mkResponse {
  status : Z;
  statusText : string;
  headers : Headers;
  json : JsonOutcome;
  stream : option string          (* [response.body], [None] for [null] *)
}.

(** The [fetch] promise resolves with a response, or rejects (connection
    fault, abort by the deadline); a rejection is kept as the text that
    [err instanceof Error ? err.message : String(err)] gives. *)
Inductive Outcome : Type :=
| Responded (r : Response)
| Rejected (description : string).

(** [response.ok] *)
Definition ok (r : Response) : bool := (200 <=? status r) && (status r <=? 299).

Definition lower_ascii (c : ascii) : ascii :=
  let n := nat_of_ascii c in
  if (Nat.leb 65 n && Nat.leb n 90)%bool then ascii_of_nat (n + 32) else c.

Fixpoint lower (s : string) : string :=
  match s with
  | EmptyString => EmptyString
  | String c rest => String (lower_ascii c) (lower rest)
  end.

(** [headers.get(name)]: [None] stands for [null]. *)
Fixpoint headers_find (name : string) (h : Headers) : option string :=
  match h with
  | [] => None
  | (k, v) :: rest => if String.eqb k name then Some v else headers_find name rest
  end.

Definition headers_get (h : Headers) (name : string) : option string :=
  headers_find (lower name) h.

(** [RETRYABLE_STATUS_CODES.has(status)] *)
Definition retryable (status : Z) : bool :=
  existsb (Z.eqb status) RETRYABLE_STATUS_CODES.

(** [l[i]], [None] for [undefined]. *)
Definition index {A : Type} (l : list A) (i : Z) : option A :=
  if i <? 0 then None else nth_error l (Z.to_nat i).

(** How long a retry sleeps.  [RetryAfterDelay h] is
    [parseFloat(h) * 1000]; it is kept as the header text it is computed
    from. *)
Inductive Delay : Type :=
| RetryAfterDelay (header : string)
| FixedDelay (ms : Z).

(** [BACKOFF_SCHEDULE[attempt] ?? BACKOFF_SCHEDULE[BACKOFF_SCHEDULE.length - 1]!] *)
Definition backoff (attempt : Z) : Z :=
  match index BACKOFF_SCHEDULE attempt with
  | Some d => d
  | None =>
      match index BACKOFF_SCHEDULE (Z.of_nat (List.length BACKOFF_SCHEDULE) - 1) with
      | Some d => d
      | None => 0
      end
  end.

(** [retryAfter ? parseFloat(retryAfter) * 1000 : (BACKOFF_SCHEDULE[attempt] ?? ...)]:
    [null] and the empty string are falsy. *)
Definition retry_after_or_backoff (retryAfter : option string) (attempt : Z) : Delay :=
  match retryAfter with
  | Some (String c rest) => RetryAfterDelay (String c rest)
  | _ => FixedDelay (backoff attempt)
  end.

(** *** The world a call runs in *)

Inductive Event : Type :=
| SetTimeout (ms : Z)               (* the abort timer of an attempt is armed *)
| ClearTimeout
| Fetch (method path : string)
| Sleep (d : Delay).

Record World : Type := mkWorld {
  calls : nat;                      (* how many times [fetch] was called *)
  log : list Event                  (* what happened, oldest first *)
}.

Definition initial : World := mkWorld 0 [].

(** Computations of the HTTP client. *)
Definition IO (A : Type) : Type := M World A.

Definition emit (e : Event) : IO unit :=
  fun w => (Normal tt, mkWorld (calls w) (log w ++ [e])%list).

(** How a pass through the body of the [for] loop ends when it does not
    throw: [return v] or [continue]. *)
Inductive Step (A : Type) : Type :=
| Return (v : A)
| Continue.
Arguments Return {A} v.
Arguments Continue {A}.

Definition network_error (description : string) : LeanvoxError :=
  new_LeanvoxError (VStr ("Network error: " ++ description)) (VStr "network_error") 0 VUndefined.

Definition max_retries_error : LeanvoxError :=
  new_LeanvoxError (VStr "Max retries exceeded") (VStr "max_retries") 0 VUndefined.

(** [for (let attempt = 0; attempt <= this.maxRetries; attempt++)]: the
    values [attempt] takes. *)
Definition attempts (maxRetries : Z) : list Z :=
  map Z.of_nat (seq 0 (Z.to_nat (maxRetries + 1))).

(** The loop, and the [throw] that follows it. *)
Fixpoint for_attempts {A : Type} (body : Z -> IO (Step A)) (todo : list Z) : IO A :=
  match todo with
  | [] => throw (LeanvoxExn max_retries_error)
  | attempt :: rest =>
      s <- body attempt ;;
      match s with
      | Return v => ret v
      | Continue => for_attempts body rest
      end
  end.

Section Transport.

(** The network: what the [n]-th call of [fetch] answers. *)
Variable server : nat -> Outcome.

Definition fetch (method path : string) : IO Response :=
  fun w =>
    let w' := mkWorld (S (calls w)) (log w ++ [Fetch method path])%list in
    match server (calls w) with
    | Responded r => (Normal r, w')
    | Rejected d => (Abrupt (OtherExn d), w')
    end.

Definition response_json (r : Response) : IO value :=
  match json r with
  | Parsed v => ret v
  | Unparsable d => throw (OtherExn d)
  end.

(** [try { body = await response.json() } catch { body = { error: { message: response.statusText } } }] *)
Definition error_body (r : Response) : IO value :=
  try_catch (response_json r)
            (fun _ => ret (VObj [("error", VObj [("message", VStr (statusText r))])])).

(** The [catch (err)] clause shared by the three methods. *)
Definition on_error {A : Type} (c : HTTPClient) (attempt : Z) (err : Exn) : IO (Step A) :=
  emit ClearTimeout ;;
  match err with
  | LeanvoxExn e => throw (LeanvoxExn e)
  | OtherExn d =>
      if attempt <? maxRetries c then
        emit (Sleep (FixedDelay (backoff attempt))) ;;
        ret Continue
      else
        throw (LeanvoxExn (network_error d))
  end.

(** **** request: the loop, for a URL that was built and a body that
    [JSON.stringify] accepts; [Calls.request] below is the whole method *)

Definition request_attempt (c : HTTPClient) (method path : string) (timeoutMs : Z)
    (attempt : Z) : IO (Step value) :=
  emit (SetTimeout timeoutMs) ;;
  try_catch
    (response <- fetch method path ;;
     emit ClearTimeout ;;
     if ok response then
       if status response =? 204 then ret (Return VUndefined)
       else v <- response_json response ;; ret (Return v)
     else if retryable (status response) && (attempt <? maxRetries c) then
       let retryAfter := headers_get (headers response) "Retry-After" in
       emit (Sleep (retry_after_or_backoff retryAfter attempt)) ;;
       ret Continue
     else
       body <- error_body response ;;
       throw (LeanvoxExn (raiseForStatus (status response) body)))
    (on_error c attempt).

Definition request (c : HTTPClient) (method path : string) (timeoutMs : option Z)
  : IO value :=
  let timeoutMs := match timeoutMs with Some t => t | None => timeout c * 1000 end in
  for_attempts (request_attempt c method path timeoutMs) (attempts (maxRetries c)).

(** **** requestStream: the loop, as for [request]; [Calls.requestStream]
    below is the whole method *)

Definition requestStream_attempt (c : HTTPClient) (method path : string) (timeoutMs : Z)
    (attempt : Z) : IO (Step (string * Headers)) :=
  emit (SetTimeout timeoutMs) ;;
  try_catch
    (response <- fetch method path ;;
     emit ClearTimeout ;;
     match ok response, stream response with
     | true, Some s => ret (Return (s, headers response))
     | _, _ =>
         if retryable (status response) && (attempt <? maxRetries c) then
           let retryAfter := headers_get (headers response) "Retry-After" in
           emit (Sleep (retry_after_or_backoff retryAfter attempt)) ;;
           ret Continue
         else
           body <- error_body response ;;
           throw (LeanvoxExn (raiseForStatus (status response) body))
     end)
    (on_error c attempt).

Definition requestStream (c : HTTPClient) (method path : string) (timeoutMs : option Z)
  : IO (string * Headers) :=
  let timeoutMs := match timeoutMs with Some t => t | None => 120000 end in
  for_attempts (requestStream_attempt c method path timeoutMs) (attempts (maxRetries c)).

(** **** upload: the loop, for a URL that was built; [Calls.upload] below
    is the whole method *)

Definition upload_attempt (c : HTTPClient) (path : string) (effectiveTimeout : Z)
    (attempt : Z) : IO (Step value) :=
  emit (SetTimeout effectiveTimeout) ;;
  try_catch
    (response <- fetch "POST" path ;;
     emit ClearTimeout ;;
     if ok response then
       v <- response_json response ;; ret (Return v)
     else if retryable (status response) && (attempt <? maxRetries c) then
       emit (Sleep (FixedDelay (backoff attempt))) ;;
       ret Continue
     else
       body <- error_body response ;;
       throw (LeanvoxExn (raiseForStatus (status response) body)))
    (on_error c attempt).

Definition upload (c : HTTPClient) (path : string) (timeoutMs : option Z) : IO value :=
  let effectiveTimeout := match timeoutMs with Some t => t | None => timeout c * 1000 end in
  for_attempts (upload_attempt c path effectiveTimeout) (attempts (maxRetries c)).

End Transport.

End Http.
Import Http.

(** ** client.ts: [generateAsyncAndPoll] *)

Module Client.

Definition ASYNC_POLL_INTERVAL : Z := 2000.

Record GenerateOptions : Type := mkOptions {
  text : string;
  model : option string;
  voice : option string;
  language : option string;
  format : option string;
  speed : option Q;
  exaggeration : option Q
}.

Record Job : Type := mkJob {
  id : string;
  status : string;
  estimatedSeconds : option Q;
  audioUrl : option string;
  error : option string
}.

Record RawGenerateResult : Type := mkRaw {
  audio_url : string;
  raw_model : string;
  raw_voice : string;
  raw_characters : Z;
  cost_cents : Z;
  generated_voice_id : option string;
  suggestion : option string
}.

(** The data fields of a [GenerateResult]; its [download] and [save]
    closures fetch [audio_url] when called and are left out. *)
Record GenerateResult : Type := mkResult {
  result_audioUrl : string;
  result_model : string;
  result_voice : string;
  characters : Z;
  costCents : Z;
  generatedVoiceId : option string;
  result_suggestion : option string
}.

Definition makeResult (raw : RawGenerateResult) : GenerateResult :=
  mkResult (audio_url raw) (raw_model raw) (raw_voice raw) (raw_characters raw)
           (cost_cents raw) (generated_voice_id raw) (suggestion raw).

(** [x ?? d] at a type that has no [null] of its own. *)
Definition or_default {A : Type} (x : option A) (d : A) : A :=
  match x with
  | Some a => a
  | None => d
  end.

Inductive PollEvent : Type :=
| GenerateAsync (options : GenerateOptions)
| GetJob (jobId : string)
| Wait (ms : Z).

Record PollWorld : Type := mkPollWorld {
  api_calls : nat;                   (* calls of [generateAsync] and [getJob] so far *)
  poll_log : list PollEvent
}.

Definition poll_initial : PollWorld := mkPollWorld 0 [].

(** What a call of [this.generateAsync] or [this.getJob] gives: the job of
    the service's answer, or whatever the call throws. *)
Inductive JobOutcome : Type :=
| JobReturned (j : Job)
| JobThrown (x : Exn).

(** Computations of the poller. *)
Definition Poll (A : Type) : Type := M PollWorld A.

Section Poller.

(** The service: what the [n]-th of these calls gives. *)
Variable api : nat -> JobOutcome.

Definition api_call (e : PollEvent) : Poll Job :=
  fun w =>
    let w' := mkPollWorld (S (api_calls w)) (poll_log w ++ [e])%list in
    match api (api_calls w) with
    | JobReturned j => (Normal j, w')
    | JobThrown x => (Abrupt x, w')
    end.

Definition generateAsync (options : GenerateOptions) : Poll Job :=
  api_call (GenerateAsync options).

Definition getJob (jobId : string) : Poll Job :=
  api_call (GetJob jobId).

Definition wait (ms : Z) : Poll unit :=
  fun w => (Normal tt, mkPollWorld (api_calls w) (poll_log w ++ [Wait ms])%list).

(** [current.status !== "completed" && current.status !== "failed"] *)
Definition polling (current : Job) : bool :=
  negb (String.eqb (status current) "completed")
  && negb (String.eqb (status current) "failed").

(** The [while] loop; it has no bound of its own, [fuel] bounds the number
    of passes and [None] reports that it was used up. *)
Fixpoint poll (fuel : nat) (current : Job) : Poll (option Job) :=
  if polling current then
    match fuel with
    | O => ret None
    | S fuel' =>
        wait ASYNC_POLL_INTERVAL ;;
        next <- getJob (id current) ;;
        poll fuel' next
    end
  else ret (Some current).

Definition generateAsyncAndPoll (fuel : nat) (options : GenerateOptions)
  : Poll (option GenerateResult) :=
  job <- generateAsync options ;;
  finished <- poll fuel job ;;
  match finished with
  | None => ret None
  | Some current =>
      if String.eqb (status current) "failed" then
        throw (LeanvoxExn
                 (new_InvalidRequestError
                    (VStr (or_default (error current) "Async job failed"))
                    VUndefined VUndefined))
      else
        ret (Some (makeResult
                     (mkRaw (or_default (audioUrl current) "")
                            (or_default (model options) "standard")
                            (or_default (voice options) "")
                            (Z.of_nat (String.length (text options)))
                            0 None None)))
  end.

End Poller.

End Client.

(** ** Reading a run

    What the properties below observe of a run: the deadlines armed, the
    delays slept, and how each pass through the loop ended. *)

Module Reading.

Fixpoint deadlines (l : list Event) : list Z :=
  match l with
  | [] => []
  | SetTimeout ms :: rest => ms :: deadlines rest
  | _ :: rest => deadlines rest
  end.

Fixpoint sleeps (l : list Event) : list Delay :=
  match l with
  | [] => []
  | Sleep d :: rest => d :: sleeps rest
  | _ :: rest => sleeps rest
  end.

(** The body handed to [raiseForStatus]: the parsed one, or the
    replacement built from the status text. *)
Definition error_body_value (r : Response) : value :=
  match json r with
  | Parsed v => v
  | Unparsable _ => VObj [("error", VObj [("message", VStr (statusText r))])]
  end.

(** How one pass through the loop ends. *)
Inductive AttemptEnd (A : Type) : Type :=
| Returned (v : A)
| Retried (d : Delay)
| Threw (e : LeanvoxError).
Arguments Returned {A} v.
Arguments Retried {A} d.
Arguments Threw {A} e.

Definition completion {A : Type} (e : AttemptEnd A) : Completion (Step A) :=
  match e with
  | Returned v => Normal (Return v)
  | Retried _ => Normal Continue
  | Threw e => Abrupt (LeanvoxExn e)
  end.

Definition delay_of {A : Type} (e : AttemptEnd A) : list Delay :=
  match e with
  | Retried d => [d]
  | _ => []
  end.

Definition fault_end {A : Type} (c : HTTPClient) (attempt : Z) (d : string) : AttemptEnd A :=
  if attempt <? maxRetries c then Retried (FixedDelay (backoff attempt))
  else Threw (network_error d).

Definition status_end {A : Type} (c : HTTPClient) (attempt : Z) (r : Response)
    (d : Delay) : AttemptEnd A :=
  if retryable (Http.status r) && (attempt <? maxRetries c) then Retried d
  else Threw (raiseForStatus (Http.status r) (error_body_value r)).

Definition request_end (c : HTTPClient) (attempt : Z) (o : Outcome) : AttemptEnd value :=
  match o with
  | Rejected d => fault_end c attempt d
  | Responded r =>
      if ok r then
        if Http.status r =? 204 then Returned VUndefined
        else match json r with
             | Parsed v => Returned v
             | Unparsable d => fault_end c attempt d
             end
      else status_end c attempt r
             (retry_after_or_backoff (headers_get (headers r) "Retry-After") attempt)
  end.

Definition requestStream_end (c : HTTPClient) (attempt : Z) (o : Outcome)
  : AttemptEnd (string * Headers) :=
  match o with
  | Rejected d => fault_end c attempt d
  | Responded r =>
      match ok r, stream r with
      | true, Some s => Returned (s, headers r)
      | _, _ => status_end c attempt r
                  (retry_after_or_backoff (headers_get (headers r) "Retry-After") attempt)
      end
  end.

Definition upload_end (c : HTTPClient) (attempt : Z) (o : Outcome) : AttemptEnd value :=
  match o with
  | Rejected d => fault_end c attempt d
  | Responded r =>
      if ok r then
        match json r with
        | Parsed v => Returned v
        | Unparsable d => fault_end c attempt d
        end
      else status_end c attempt r (FixedDelay (backoff attempt))
  end.

(** The loop as a function of the answers alone: the completion, the
    number of calls of [fetch] when it ends, and the delays slept. *)
Fixpoint ends {A : Type} (server : nat -> Outcome) (end_of : Z -> Outcome -> AttemptEnd A)
    (todo : list Z) (n : nat) : Completion A * nat * list Delay :=
  match todo with
  | [] => (Abrupt (LeanvoxExn max_retries_error), n, [])
  | attempt :: rest =>
      match end_of attempt (server n) with
      | Returned v => (Normal v, S n, [])
      | Threw e => (Abrupt (LeanvoxExn e), S n, [])
      | Retried d =>
          let '(res, n', ds) := ends server end_of rest (S n) in
          (res, n', d :: ds)
      end
  end.

End Reading.
Import Reading.

(** The delay in milliseconds, for a header that is a plain decimal
    numeral ([digits], [digits.digits], [.digits]): on these [parseFloat]
    reads the whole text.  Other header texts give [None] here. *)
Module Millis.

Definition digit (c : ascii) : option Z :=
  let n := nat_of_ascii c in
  if (Nat.leb 48 n && Nat.leb n 57)%bool then Some (Z.of_nat (n - 48)) else None.

Fixpoint read_fraction (s : string) (seen : bool) (num : Z) (den : positive) : option Q :=
  match s with
  | EmptyString => if seen then Some (num # den) else None
  | String c rest =>
      match digit c with
      | Some d => read_fraction rest true (10 * num + d) (10 * den)
      | None => None
      end
  end.

Fixpoint read_integer (s : string) (seen : bool) (num : Z) : option Q :=
  match s with
  | EmptyString => if seen then Some (num # 1) else None
  | String c rest =>
      if Ascii.eqb c "."%char then read_fraction rest seen num 1
      else match digit c with
           | Some d => read_integer rest true (10 * num + d)
           | None => None
           end
  end.

Definition plain_decimal (s : string) : option Q := read_integer s false 0.

Definition delay_ms (d : Delay) : option Q :=
  match d with
  | RetryAfterDelay h => option_map (fun q => Qred (q * 1000)) (plain_decimal h)
  | FixedDelay ms => Some (inject_Z ms)
  end.

End Millis.

(** ** The specification's tables *)

Module Spec.

(** The kinds of the error taxonomy, with the field a kind carries. *)
Inductive Kind : Type :=
| invalid_request
| authentication
| insufficient_balance (balanceCents : value)
| not_found
| rate_limit (retryAfterSeconds : value)
| server_error
| generic_http (httpStatus : Z).

(** [parsedBody.error.<field>] *)
Definition error_field (parsedBody : value) (field : string) : value :=
  opt_get (opt_get parsedBody "error") field.

(** The status-to-kind table of the error classifier. *)
Definition taxonomy : list (Z * (value -> Kind)) :=
  [ (400, fun _ => invalid_request);
    (401, fun _ => authentication);
    (402, fun parsedBody => insufficient_balance (error_field parsedBody "balance_cents"));
    (404, fun _ => not_found);
    (429, fun parsedBody => rate_limit (error_field parsedBody "retry_after"));
    (500, fun _ => server_error) ].

Definition classify (httpStatus : Z) (parsedBody : value) : Kind :=
  match find (fun row => fst row =? httpStatus) taxonomy with
  | Some (_, kind) => kind parsedBody
  | None => generic_http httpStatus
  end.

(** The kind an error of the code stands for. *)
Definition kind_of (e : LeanvoxError) : Kind :=
  match class e with
  | LeanvoxErrorClass => generic_http (statusCode e)
  | InvalidRequestErrorClass => invalid_request
  | AuthenticationErrorClass => authentication
  | InsufficientBalanceErrorClass balanceCents => insufficient_balance balanceCents
  | NotFoundErrorClass => not_found
  | RateLimitErrorClass retryAfter => rate_limit retryAfter
  | ServerErrorClass => server_error
  | StreamingFormatErrorClass => invalid_request
  end.

(** The backoff schedule [[1000, 2000, 4000]] indexed by the attempt and
    clamped to its last entry. *)
Definition schedule (i : Z) : Z :=
  if i <=? 0 then 1000 else if i =? 1 then 2000 else 4000.

(** The default message of the extraction rule. *)
Definition default_message (httpStatus : Z) : string :=
  "API error (status " ++ show_Z httpStatus ++ ")".

End Spec.

(** The delay of the retry that follows the answer [o] to attempt [i]:
    the [Retry-After] header of an error response when it has one that is
    not empty, the schedule otherwise. *)
Definition retry_delay (i : Z) (o : Outcome) : Delay :=
  match o with
  | Rejected _ => FixedDelay (Spec.schedule i)
  | Responded r =>
      if ok r then FixedDelay (Spec.schedule i)
      else match headers_get (headers r) "Retry-After" with
           | None => FixedDelay (Spec.schedule i)
           | Some h => if String.eqb h "" then FixedDelay (Spec.schedule i)
                       else RetryAfterDelay h
           end
  end.

(** What a pass through a loop body does to the world, whatever the
    method: one call of [fetch], one deadline armed, and the sleep of a
    retry. *)
Definition attempt_sound {A : Type} (server : nat -> Outcome) (timeoutMs : Z)
    (body : Z -> IO (Step A)) (end_of : Z -> Outcome -> AttemptEnd A) : Prop :=
  forall attempt w, exists evs,
    body attempt w
    = (completion (end_of attempt (server (calls w))),
       mkWorld (S (calls w)) (log w ++ evs))
    /\ deadlines evs = [timeoutMs]
    /\ sleeps evs = delay_of (end_of attempt (server (calls w))).

(** ** Sample clients, answers and servers *)

Module Samples.

Definition client (maxRetries : Z) : HTTPClient :=
  mkClient "https://api.leanvox.com" "lv_test_abc" 30 maxRetries.

Definition html_500 : Response :=
  mkResponse 500 "Internal Server Error" []
             (Unparsable "Unexpected token < in JSON at position 0") None.

Definition json_500 : Response :=
  mkResponse 500 "Internal Server Error" []
             (Parsed (VObj [("error", VObj [("message", VStr "server error");
                                             ("code", VStr "server_error")])]))
             None.

Definition bad_request : Response :=
  mkResponse 400 "Bad Request" []
             (Parsed (VObj [("error", VObj [("message", VStr "bad request");
                                             ("code", VStr "invalid_request")])]))
             None.

Definition rate_limited : Response :=
  mkResponse 429 "Too Many Requests" [("retry-after", "0.01")]
             (Parsed (VObj [("error", VObj [("message", VStr "rate limited")])]))
             None.

Definition unavailable : Response :=
  mkResponse 503 "Service Unavailable" [("retry-after", "5")]
             (Parsed (VObj [("error", VObj [("message", VStr "busy")])]))
             None.

Definition accepted : Response :=
  mkResponse 200 "OK" [] (Parsed (VObj [("ok", VBool true)])) (Some "audio").

(** A server that gives the same answer to every call. *)
Definition always (r : Response) : nat -> Outcome := fun _ => Responded r.

(** A server that answers [first] once, then [accepted]. *)
Definition once (first : Response) : nat -> Outcome :=
  fun n => match n with O => Responded first | S _ => Responded accepted end.

(** Two refused connections, then a 400. *)
Definition flaky : nat -> Outcome :=
  fun n => match n with
           | O | S O => Rejected "ECONNREFUSED"
           | _ => Responded bad_request
           end.

End Samples.

(** ** What a pass can throw *)

(** What a pass can throw: a network error, or the error classified from
    the response it got. *)
Definition threw_from (o : Outcome) (e : LeanvoxError) : Prop :=
  (exists d, e = network_error d)
  \/ (exists r, o = Responded r /\ e = raiseForStatus (Http.status r) (error_body_value r)).

(** ** Sample jobs *)

Module JobSamples.

Definition long_text : Client.GenerateOptions :=
  Client.mkOptions "a text long enough to be generated asynchronously"
                   (Some "pro") (Some "emma") None None None None.

Definition pending : Client.Job := Client.mkJob "job_auto" "pending" (Some (5 # 1)) None None.

Definition completed : Client.Job := Client.mkJob "job_auto" "completed" None (Some "X") None.

Definition failed : Client.Job := Client.mkJob "job_auto" "failed" None None (Some "bad text").

(** The service answers [pending] to the submission and [last] to the
    polls. *)
Definition service (last : Client.Job) : nat -> Client.JobOutcome :=
  fun n => match n with
           | O => Client.JobReturned pending
           | S _ => Client.JobReturned last
           end.

End JobSamples.

(** ** Further observations of a run *)

(** An answer that the loop retries while the budget lasts: a rejected
    [fetch], or an error response with a retryable status. *)
Definition retryable_failure (o : Outcome) : Prop :=
  match o with
  | Rejected _ => True
  | Responded r => ok r = false /\ retryable (Http.status r) = true
  end.

(** The abort timer as the log shows it.  [timer armed l] follows the log
    [l] from a state where the timer is armed or not: [SetTimeout] arms
    it, [ClearTimeout] releases it.  The result is [None] when a timer is
    armed while one is pending, when [fetch] is called with no timer
    armed, or when the loop sleeps with a timer pending; otherwise it is
    the state of the timer at the end. *)
Fixpoint timer (armed : bool) (l : list Event) : option bool :=
  match l with
  | [] => Some armed
  | SetTimeout _ :: rest => if armed then None else timer true rest
  | ClearTimeout :: rest => timer false rest
  | Fetch _ _ :: rest => if armed then timer true rest else None
  | Sleep _ :: rest => if armed then None else timer false rest
  end.

(** A loop body keeps the timer discipline when each pass appends to the
    log a stretch that starts and ends with no timer pending. *)
Definition attempt_timed {A : Type} (body : Z -> IO (Step A)) : Prop :=
  forall attempt w, exists evs,
    log (snd (body attempt w)) = (log w ++ evs)%list
    /\ timer false evs = Some false.

(** ** More sample answers *)

Module MoreSamples.

Definition no_content : Response :=
  mkResponse 204 "No Content" [] (Unparsable "Unexpected end of JSON input") None.

End MoreSamples.

(** ** auth.ts *)

Module Auth.

Definition VALID_PREFIXES : list string := ["lv_live_"; "lv_test_"].

(** A [string | undefined] used as a condition: [undefined] and the empty
    string are falsy. *)
Definition truthy (s : option string) : bool :=
  match s with
  | Some (String _ _) => true
  | _ => false
  end.

(** [resolveApiKey(explicit)].  [env] is [process.env["LEANVOX_API_KEY"]]
    and [config] what [readConfigFile()] returns, which reads
    [~/.lvox/config.toml]. *)
Definition resolveApiKey (explicit env config : option string) : option string :=
  if truthy explicit then explicit
  else if truthy env then env
  else config.

Definition new_error (message : string) : Exn :=
  LeanvoxExn (new_AuthenticationError (VStr message) (VStr "invalid_api_key") VUndefined).

Definition validateApiKey (key : string) : Completion unit :=
  if negb (truthy (Some key)) then Abrupt (new_error "API key is required")
  else if negb (existsb (fun prefix => String.prefix prefix key) VALID_PREFIXES) then
    Abrupt (new_error ("Invalid API key prefix. Key must start with one of: "
                       ++ String.concat ", " VALID_PREFIXES))
  else Normal tt.

Definition ensureApiKey (key : option string) : Completion string :=
  match key with
  | Some (String c rest) =>
      match validateApiKey (String c rest) with
      | Normal _ => Normal (String c rest)
      | Abrupt x => Abrupt x
      end
  | _ =>
      Abrupt (new_error
                "No API key found. Pass apiKey to the constructor, set LEANVOX_API_KEY env var, or add to ~/.lvox/config.toml")
  end.

End Auth.

(** ** client.ts: construction, validation, request bodies, streaming *)

Module Tts.

Import Client.

Definition DEFAULT_BASE_URL : string := "https://api.leanvox.com".
Definition DEFAULT_TIMEOUT : Z := 30.
Definition DEFAULT_MAX_RETRIES : Z := 2.
Definition DEFAULT_AUTO_ASYNC_THRESHOLD : Z := 5000.

Record LeanvoxOptions : Type := mkLeanvoxOptions {
  opt_apiKey : option string;
  opt_baseUrl : option string;
  opt_timeout : option Z;
  opt_maxRetries : option Z;
  opt_autoAsyncThreshold : option Z
}.

(** [s.replace(/\/$/, "")]: one slash at the end of the string is removed. *)
Fixpoint strip_slash (s : string) : string :=
  match s with
  | EmptyString => EmptyString
  | String c EmptyString => if Ascii.eqb c "/"%char then EmptyString else s
  | String c rest => String c (strip_slash rest)
  end.

(** The constructor of [HTTPClient]. *)
Definition new_HTTPClient (baseUrl apiKey : string) (timeout maxRetries : Z) : HTTPClient :=
  mkClient (strip_slash baseUrl) apiKey timeout maxRetries.

(** The state of a [Leanvox] client. *)
Record Leanvox : Type := mkLeanvox {
  http : HTTPClient;
  autoAsyncThreshold : Z
}.

(** The constructor of [Leanvox], in an environment where the variable
    [LEANVOX_API_KEY] is [env] and the configuration file gives
    [config]. *)
Definition new_Leanvox (options : LeanvoxOptions) (env config : option string)
  : Completion Leanvox :=
  match Auth.ensureApiKey (Auth.resolveApiKey (opt_apiKey options) env config) with
  | Abrupt x => Abrupt x
  | Normal apiKey =>
      let baseUrl := or_default (opt_baseUrl options) DEFAULT_BASE_URL in
      let timeout := or_default (opt_timeout options) DEFAULT_TIMEOUT in
      let maxRetries := or_default (opt_maxRetries options) DEFAULT_MAX_RETRIES in
      Normal (mkLeanvox (new_HTTPClient baseUrl apiKey timeout maxRetries)
                        (or_default (opt_autoAsyncThreshold options)
                                    DEFAULT_AUTO_ASYNC_THRESHOLD))
  end.

(** [GenerateOptions] with its field [voiceInstructions]; the other
    fields are those the poller reads. *)
Record Options : Type := mkFullOptions {
  common : GenerateOptions;
  voiceInstructions : option string
}.

(** A piece of text between double quotes. *)
Definition quoted (s : string) : string :=
  String (ascii_of_nat 34) (s ++ String (ascii_of_nat 34) EmptyString).

(** [throw new InvalidRequestError(message)] *)
Definition invalid {A : Type} (message : string) : Completion A :=
  Abrupt (LeanvoxExn (new_InvalidRequestError (VStr message) VUndefined VUndefined)).

(** [options.model ?? "standard"] *)
Definition model_of (options : Options) : string :=
  or_default (model (common options)) "standard".

Definition is_model (m : string) : bool :=
  String.eqb m "standard" || String.eqb m "pro" || String.eqb m "max".

Definition validateGenerateParams (options : Options) : Completion unit :=
  let o := common options in
  if negb (Auth.truthy (Some (text o))) || (Z.of_nat (String.length (text o)) =? 0) then
    invalid "text is required and cannot be empty"
  else if 10000 <? Z.of_nat (String.length (text o)) then
    invalid "text must be 10,000 characters or fewer"
  else
    let model := model_of options in
    if negb (is_model model) then
      invalid ("model must be " ++ quoted "standard" ++ ", " ++ quoted "pro"
               ++ ", or " ++ quoted "max")
    else if match speed o with
            | Some s => negb (Qle_bool (1 # 2) s) || negb (Qle_bool s 2)
            | None => false
            end then
      invalid "speed must be between 0.5 and 2.0"
    else if match exaggeration o with
            | Some e => negb (Qeq_bool e (1 # 2)) && String.eqb model "standard"
            | None => false
            end then
      invalid "exaggeration is only supported on the pro model"
    else
      match format o with
      | Some f =>
          let fmt := lower f in
          if negb (String.eqb fmt "mp3") && negb (String.eqb fmt "wav") then
            invalid ("format must be " ++ quoted "mp3" ++ " or " ++ quoted "wav")
          else Normal tt
      | None => Normal tt
      end.

(** [body[key] = v] *)
Fixpoint assign (key : string) (v : value) (fields : list (string * value))
  : list (string * value) :=
  match fields with
  | [] => [(key, v)]
  | (k, x) :: rest =>
      if String.eqb k key then (k, v) :: rest else (k, x) :: assign key v rest
  end.

(** [if (x) body[key] = x] for a [string | undefined]. *)
Definition assign_truthy (key : string) (x : option string)
    (fields : list (string * value)) : list (string * value) :=
  match x with
  | Some (String c rest) => assign key (VStr (String c rest)) fields
  | _ => fields
  end.

(** [if (x !== undefined) body[key] = x] for a [number | undefined]. *)
Definition assign_defined (key : string) (x : option Q)
    (fields : list (string * value)) : list (string * value) :=
  match x with
  | Some q => assign key (VNum q) fields
  | None => fields
  end.

(** The last four statements of [buildGenerateBody]. *)
Definition common_fields (options : Options) (model : string)
    (body : list (string * value)) : list (string * value) :=
  let o := common options in
  let body := assign_truthy "language" (language o) body in
  let body := assign_truthy "format" (format o) body in
  let body := assign_defined "speed" (speed o) body in
  if String.eqb model "pro" then assign_defined "exaggeration" (exaggeration o) body
  else body.

Definition buildGenerateBody (options : Options) : Completion value :=
  let o := common options in
  let body := [("text", VStr (text o))] in
  let model := model_of options in
  let body := assign "model" (VStr model) body in
  if String.eqb model "max" then
    match voiceInstructions options with
    | Some (String c rest) =>
        let instructions := String c rest in
        if 300 <? Z.of_nat (String.length instructions) then
          invalid ("voiceInstructions must be 300 characters or less (got "
                   ++ show_Z (Z.of_nat (String.length instructions)) ++ ")")
        else if Auth.truthy (voice o) then
          invalid "voice and voiceInstructions are mutually exclusive"
        else
          Normal (VObj (common_fields options model
                          (assign "voice_instructions" (VStr instructions) body)))
    | _ =>
        invalid ("voice_instructions is required when model is " ++ quoted "max" ++ ". "
                 ++ "Example: voiceInstructions: "
                 ++ quoted "A warm, confident female narrator")
    end
  else if Auth.truthy (voiceInstructions options) then
    invalid ("voiceInstructions is only supported with model " ++ quoted "max"
             ++ ", not " ++ quoted model)
  else
    Normal (VObj (common_fields options model (assign_truthy "voice" (voice o) body))).

(** A step that changes nothing in the world. *)
Definition lift {A : Type} (c : Completion A) : IO A := fun w => (c, w).

(** [Leanvox.stream].  The body built goes out with the request. *)
Definition stream (server : nat -> Outcome) (client : Leanvox) (options : Options)
  : IO string :=
  lift (validateGenerateParams options) ;;
  let format := lower (or_default (format (common options)) "mp3") in
  if negb (String.eqb format "mp3") then
    throw (LeanvoxExn (new_StreamingFormatError VUndefined))
  else
    body <- lift (buildGenerateBody options) ;;
    answer <- requestStream server (http client) "POST" "/v1/tts/stream" None ;;
    ret (fst answer).

End Tts.

(** ** More samples *)

Module TtsSamples.

Definition hello : Tts.Options :=
  Tts.mkFullOptions
    (Client.mkOptions "hello" (Some "pro") (Some "af_heart") (Some "en") (Some "MP3")
                      (Some (3 # 2)) (Some (4 # 5)))
    None.

Definition described : Tts.Options :=
  Tts.mkFullOptions
    (Client.mkOptions "hello" (Some "max") None None None None None)
    (Some "A warm, confident female narrator").

Definition as_wav : Tts.Options :=
  Tts.mkFullOptions
    (Client.mkOptions "hello" None None None (Some "WAV") None None) None.

Definition default_options : Tts.LeanvoxOptions :=
  Tts.mkLeanvoxOptions (Some "lv_test_abc123") None None None None.

Definition default_client : Tts.Leanvox :=
  Tts.mkLeanvox (mkClient "https://api.leanvox.com" "lv_test_abc123" 30 2) 5000.

(** The submission is answered, the first poll fails. *)
Definition broken_service : nat -> Client.JobOutcome :=
  fun n => match n with
           | O => Client.JobReturned JobSamples.pending
           | S _ => Client.JobThrown (LeanvoxExn (network_error "ECONNRESET"))
           end.

(** The jobs that [JobSamples.service JobSamples.completed] answers. *)
Definition jobs : nat -> Client.Job :=
  fun n => match n with
           | O => JobSamples.pending
           | S _ => JobSamples.completed
           end.

End TtsSamples.

(** ** http.ts: the three methods from their first line *)

Module Calls.

(** What [JSON.stringify(options.body)] gives for the body of a call. *)
Inductive Body : Type :=
| NoBody                            (* [options.body === undefined] *)
| Serialised (text : string)
| Refused (description : string).   (* it throws, e.g. on a cycle or a BigInt *)

Section Platform.

Variable server : nat -> Outcome.

(** [new URL(path, base)]: the text of the URL, or [None] when the
    constructor throws its [TypeError]. *)
Variable new_URL : string -> string -> option string.

Definition build_URL (c : HTTPClient) (path : string) : IO string :=
  match new_URL path (baseUrl c) with
  | Some href => ret href
  | None => throw (OtherExn "Invalid URL")
  end.

(** [options?.body !== undefined ? JSON.stringify(options.body) : undefined] *)
Definition serialise (body : Body) : IO (option string) :=
  match body with
  | NoBody => ret None
  | Serialised text => ret (Some text)
  | Refused d => throw (OtherExn d)
  end.

(** One pass of the loop of [request].  The query parameters only change
    the text of the URL, which the log does not keep. *)
Definition request_attempt (c : HTTPClient) (method path : string) (body : Body)
    (timeoutMs : Z) (attempt : Z) : IO (Step value) :=
  emit (SetTimeout timeoutMs) ;;
  try_catch
    (payload <- serialise body ;;
     response <- fetch server method path ;;
     emit ClearTimeout ;;
     if ok response then
       if Http.status response =? 204 then ret (Return VUndefined)
       else v <- response_json response ;; ret (Return v)
     else if retryable (Http.status response) && (attempt <? maxRetries c) then
       let retryAfter := headers_get (headers response) "Retry-After" in
       emit (Sleep (retry_after_or_backoff retryAfter attempt)) ;;
       ret Continue
     else
       errorBody <- error_body response ;;
       throw (LeanvoxExn (raiseForStatus (Http.status response) errorBody)))
    (on_error c attempt).

Definition request (c : HTTPClient) (method path : string) (body : Body)
    (timeoutMs : option Z) : IO value :=
  url <- build_URL c path ;;
  let timeoutMs := match timeoutMs with Some t => t | None => timeout c * 1000 end in
  for_attempts (request_attempt c method path body timeoutMs) (attempts (maxRetries c)).

Definition requestStream_attempt (c : HTTPClient) (method path : string) (body : Body)
    (timeoutMs : Z) (attempt : Z) : IO (Step (string * Headers)) :=
  emit (SetTimeout timeoutMs) ;;
  try_catch
    (payload <- serialise body ;;
     response <- fetch server method path ;;
     emit ClearTimeout ;;
     match ok response, stream response with
     | true, Some s => ret (Return (s, headers response))
     | _, _ =>
         if retryable (Http.status response) && (attempt <? maxRetries c) then
           let retryAfter := headers_get (headers response) "Retry-After" in
           emit (Sleep (retry_after_or_backoff retryAfter attempt)) ;;
           ret Continue
         else
           errorBody <- error_body response ;;
           throw (LeanvoxExn (raiseForStatus (Http.status response) errorBody))
     end)
    (on_error c attempt).

Definition requestStream (c : HTTPClient) (method path : string) (body : Body)
    (timeoutMs : option Z) : IO (string * Headers) :=
  url <- build_URL c path ;;
  let timeoutMs := match timeoutMs with Some t => t | None => 120000 end in
  for_attempts (requestStream_attempt c method path body timeoutMs)
               (attempts (maxRetries c)).

(** The form data of [upload] goes to [fetch] as it is; a pass of its
    loop is [upload_attempt]. *)
Definition upload (c : HTTPClient) (path : string) (timeoutMs : option Z) : IO value :=
  url <- build_URL c path ;;
  let effectiveTimeout := match timeoutMs with Some t => t | None => timeout c * 1000 end in
  for_attempts (upload_attempt server c path effectiveTimeout) (attempts (maxRetries c)).

End Platform.

(** *** The status an error carries, by where it comes from *)

(** The error that [request] and [upload] throw in the pass whose call of
    [fetch] got the answer [o]: for a rejected call and for a success
    whose body cannot be read, a network error with status 0; for an
    error response, the error classified from it, with its status. *)
Definition from_answer (o : Outcome) (e : LeanvoxError) : Prop :=
  match o with
  | Rejected d => e = network_error d /\ statusCode e = 0
  | Responded r =>
      if ok r then
        exists d, json r = Unparsable d /\ e = network_error d /\ statusCode e = 0
      else
        e = raiseForStatus (Http.status r) (error_body_value r)
        /\ statusCode e = Http.status r
  end.

(** The same for [requestStream], which reads no body of a success: what
    it throws on a response is classified from it. *)
Definition stream_from_answer (o : Outcome) (e : LeanvoxError) : Prop :=
  match o with
  | Rejected d => e = network_error d /\ statusCode e = 0
  | Responded r =>
      e = raiseForStatus (Http.status r) (error_body_value r)
      /\ statusCode e = Http.status r
  end.

(** A run that started with no call made keeps the statuses in order
    when what it throws is a typed error that, if the body was refused,
    is thrown without a call and carries 0; if no call was made for want
    of a pass, is the error that follows the loop, with 0; and otherwise
    is the error [from] gives for the answer to the last call. *)
Definition status_by_origin {A : Type} (from : Outcome -> LeanvoxError -> Prop)
    (server : nat -> Outcome) (body : Body) (run : Completion A * World) : Prop :=
  match fst run with
  | Normal _ => True
  | Abrupt x =>
      exists e,
        x = LeanvoxExn e
        /\ match body with
           | Refused d =>
               calls (snd run) = 0%nat
               /\ statusCode e = 0
               /\ (e = network_error d \/ e = max_retries_error)
           | _ =>
               match calls (snd run) with
               | O => e = max_retries_error /\ statusCode e = 0
               | S n => from (server n) e
               end
           end
  end.

(** A run that never throws the error that follows the loop, and calls
    [fetch] unless the body was refused. *)
Definition ends_in_a_pass {A : Type} (body : Body) (run : Completion A * World) : Prop :=
  match body with
  | Refused d =>
      fst run = Abrupt (LeanvoxExn (network_error d)) /\ calls (snd run) = 0%nat
  | _ =>
      (1 <= calls (snd run))%nat
      /\ fst run <> Abrupt (LeanvoxExn max_retries_error)
  end.

End Calls.

(** ** Sample platforms and calls *)

Module CallSamples.

(** A URL constructor that accepts the bases that start with a scheme. *)
Definition new_URL (path base : string) : option string :=
  if String.prefix "https://" base || String.prefix "http://" base
  then Some (base ++ path)
  else None.

Definition html_200 : Response :=
  mkResponse 200 "OK" [] (Unparsable "Unexpected token < in JSON at position 0") None.

(** A client whose base URL has no scheme. *)
Definition misconfigured (maxRetries : Z) : HTTPClient :=
  mkClient "api.leanvox.com" "lv_test_abc" 30 maxRetries.

End CallSamples.

(** ** JavaScript numbers in comparisons *)

Module Number.

(** A number: a finite one, which is a rational, [NaN], or an infinity. *)
Inductive number : Type :=
| Finite (q : Q)
| NaN
| Infinity (negative : bool).

(** [a < b] *)
Definition lt (a b : number) : bool :=
  match a, b with
  | NaN, _ | _, NaN => false
  | Finite x, Finite y => negb (Qle_bool y x)
  | Finite _, Infinity negative => negb negative
  | Infinity negative, Finite _ => negative
  | Infinity n1, Infinity n2 => n1 && negb n2
  end.

(** [a > b] *)
Definition gt (a b : number) : bool := lt b a.

(** [a !== b] *)
Definition differs (a b : number) : bool :=
  match a, b with
  | NaN, _ | _, NaN => true
  | Finite x, Finite y => negb (Qeq_bool x y)
  | Infinity n1, Infinity n2 => negb (Bool.eqb n1 n2)
  | _, _ => true
  end.

End Number.

(** ** client.ts: [validateGenerateParams] on JavaScript numbers *)

Module Validation.

Import Number.

(** [GenerateOptions] as declared, with numbers that may be [NaN] or
    infinite. *)
Record GenerateOptions : Type := mkGenerateOptions {
  text : string;
  model : option string;
  voice : option string;
  voiceInstructions : option string;
  language : option string;
  format : option string;
  speed : option number;
  exaggeration : option number
}.

Definition validateGenerateParams (options : GenerateOptions) : Completion unit :=
  if negb (Auth.truthy (Some (text options)))
     || (Z.of_nat (String.length (text options)) =? 0) then
    Tts.invalid "text is required and cannot be empty"
  else if 10000 <? Z.of_nat (String.length (text options)) then
    Tts.invalid "text must be 10,000 characters or fewer"
  else
    let model := Client.or_default (model options) "standard" in
    if negb (String.eqb model "standard") && negb (String.eqb model "pro")
       && negb (String.eqb model "max") then
      Tts.invalid ("model must be " ++ Tts.quoted "standard" ++ ", " ++ Tts.quoted "pro"
                   ++ ", or " ++ Tts.quoted "max")
    else if match speed options with
            | Some s => lt s (Finite (1 # 2)) || gt s (Finite 2)
            | None => false
            end then
      Tts.invalid "speed must be between 0.5 and 2.0"
    else if match exaggeration options with
            | Some e => differs e (Finite (1 # 2)) && String.eqb model "standard"
            | None => false
            end then
      Tts.invalid "exaggeration is only supported on the pro model"
    else
      match format options with
      | Some f =>
          let fmt := lower f in
          if negb (String.eqb fmt "mp3") && negb (String.eqb fmt "wav") then
            Tts.invalid ("format must be " ++ Tts.quoted "mp3" ++ " or " ++ Tts.quoted "wav")
          else Normal tt
      | None => Normal tt
      end.

End Validation.

(** The options of [Tts], whose numbers are finite, as options with
    JavaScript numbers. *)
Definition with_finite_numbers (options : Tts.Options) : Validation.GenerateOptions :=
  let o := Tts.common options in
  Validation.mkGenerateOptions
    (Client.text o) (Client.model o) (Client.voice o) (Tts.voiceInstructions options)
    (Client.language o) (Client.format o)
    (option_map Number.Finite (Client.speed o))
    (option_map Number.Finite (Client.exaggeration o)).

(** * Properties *)

(** ** The monad and the loop *)

Lemma raiseForStatus_statusCode (status : Z) (body : value) :
  statusCode (raiseForStatus status body) = status.
Proof.
  unfold raiseForStatus, STATUS_MAP.
  destruct (Z.eqb_spec status 402) as [->|]; [reflexivity|].
  destruct (Z.eqb_spec status 429) as [->|]; [reflexivity|].
  destruct (Z.eqb_spec status 400) as [->|]; [reflexivity|].
  destruct (Z.eqb_spec status 401) as [->|]; [reflexivity|].
  destruct (Z.eqb_spec status 404) as [->|]; [reflexivity|].
  destruct (Z.eqb_spec status 500) as [->|]; reflexivity.
Qed.

Lemma backoff_schedule (i : Z) : 0 <= i -> backoff i = Spec.schedule i.
Proof.
  intros Hi. unfold backoff, index, Spec.schedule.
  destruct (Z.ltb_spec i 0); [lia|].
  destruct (Z.leb_spec i 0).
  - replace i with 0 by lia. reflexivity.
  - destruct (Z.eqb_spec i 1) as [->|]; [reflexivity|].
    destruct (Z.to_nat i) as [|[|[|k]]] eqn:E; try lia; simpl.
    + reflexivity.
    + destruct k; reflexivity.
Qed.

Lemma deadlines_app (l1 l2 : list Event) :
  deadlines (l1 ++ l2) = (deadlines l1 ++ deadlines l2)%list.
Proof.
  induction l1 as [|e l1 IH]; simpl; [reflexivity|].
  destruct e; simpl; rewrite IH; reflexivity.
Qed.

Lemma sleeps_app (l1 l2 : list Event) :
  sleeps (l1 ++ l2) = (sleeps l1 ++ sleeps l2)%list.
Proof.
  induction l1 as [|e l1 IH]; simpl; [reflexivity|].
  destruct e; simpl; rewrite IH; reflexivity.
Qed.

Ltac run_attempt :=
  unfold on_error, error_body, response_json, fetch, emit, bind, ret, throw, try_catch;
  simpl.

Ltac close_attempt :=
  simpl; rewrite <- ?app_assoc; simpl;
  eexists; split; [reflexivity | split; reflexivity].

Lemma request_attempt_sound server c method path timeoutMs :
  attempt_sound server timeoutMs (request_attempt server c method path timeoutMs)
                (request_end c).
Proof.
  intros attempt w. unfold request_attempt, request_end, fault_end, status_end, error_body_value.
  run_attempt.
  destruct (server (calls w)) as [r|d]; simpl.
  - destruct (ok r); simpl.
    + destruct (Http.status r =? 204); simpl; [close_attempt|].
      destruct (json r) as [v|d]; simpl; [close_attempt|].
      destruct (attempt <? maxRetries c); close_attempt.
    + destruct (retryable (Http.status r) && (attempt <? maxRetries c)); simpl;
        [close_attempt|].
      destruct (json r) as [v|d]; close_attempt.
  - destruct (attempt <? maxRetries c); close_attempt.
Qed.

Lemma requestStream_attempt_sound server c method path timeoutMs :
  attempt_sound server timeoutMs (requestStream_attempt server c method path timeoutMs)
                (requestStream_end c).
Proof.
  intros attempt w.
  unfold requestStream_attempt, requestStream_end, fault_end, status_end, error_body_value.
  run_attempt.
  destruct (server (calls w)) as [r|d]; simpl.
  - destruct (ok r), (stream r) as [s|]; simpl; try close_attempt;
      (destruct (retryable (Http.status r) && (attempt <? maxRetries c)); simpl;
       [close_attempt|]; destruct (json r) as [v|d]; close_attempt).
  - destruct (attempt <? maxRetries c); close_attempt.
Qed.

Lemma upload_attempt_sound server c path timeoutMs :
  attempt_sound server timeoutMs (upload_attempt server c path timeoutMs) (upload_end c).
Proof.
  intros attempt w. unfold upload_attempt, upload_end, fault_end, status_end, error_body_value.
  run_attempt.
  destruct (server (calls w)) as [r|d]; simpl.
  - destruct (ok r); simpl.
    + destruct (json r) as [v|d]; simpl; [close_attempt|].
      destruct (attempt <? maxRetries c); close_attempt.
    + destruct (retryable (Http.status r) && (attempt <? maxRetries c)); simpl;
        [close_attempt|].
      destruct (json r) as [v|d]; close_attempt.
  - destruct (attempt <? maxRetries c); close_attempt.
Qed.

Section Loop.

Context {A : Type}.
Variable server : nat -> Outcome.
Variable timeoutMs : Z.
Variable body : Z -> IO (Step A).
Variable end_of : Z -> Outcome -> AttemptEnd A.
Hypothesis sound : attempt_sound server timeoutMs body end_of.

Lemma ends_calls (todo : list Z) (n : nat) :
  (n <= snd (fst (ends server end_of todo n)))%nat.
Proof.
  revert n. induction todo as [|attempt rest IH]; intros n; simpl; [lia|].
  destruct (end_of attempt (server n)); simpl; try lia.
  specialize (IH (S n)).
  destruct (ends server end_of rest (S n)) as [[res n'] ds]; simpl in *. lia.
Qed.

(** The loop of the code ends as [ends] computes. *)
Lemma for_attempts_ends (todo : list Z) (w : World) :
  exists w',
    for_attempts body todo w = (fst (fst (ends server end_of todo (calls w))), w')
    /\ calls w' = snd (fst (ends server end_of todo (calls w)))
    /\ sleeps (log w') = (sleeps (log w) ++ snd (ends server end_of todo (calls w)))%list
    /\ deadlines (log w')
       = (deadlines (log w) ++ repeat timeoutMs (calls w' - calls w))%list.
Proof.
  revert w. induction todo as [|attempt rest IH]; intros w; cbn -[Nat.sub].
  - exists w. unfold throw. rewrite Nat.sub_diag, !app_nil_r. auto.
  - destruct (sound attempt w) as (evs & Hrun & Hdl & Hsl).
    unfold bind. rewrite Hrun.
    set (w1 := mkWorld (S (calls w)) (log w ++ evs)).
    assert (Hone : (S (calls w) - calls w = 1)%nat) by lia.
    destruct (end_of attempt (server (calls w))) as [v|d|e]; cbn -[Nat.sub] in *.
    + exists w1. unfold ret. cbn -[Nat.sub].
      rewrite sleeps_app, deadlines_app, Hdl, Hsl, Hone. auto.
    + destruct (IH w1) as (w' & Hloop & Hcalls & Hsleeps & Hdeadlines).
      pose proof (ends_calls rest (S (calls w))) as Hle.
      cbn -[Nat.sub] in Hloop, Hcalls, Hsleeps, Hdeadlines.
      destruct (ends server end_of rest (S (calls w))) as [[res n'] ds];
        cbn -[Nat.sub] in *.
      exists w'. rewrite Hloop, Hsleeps, Hdeadlines, sleeps_app, deadlines_app, Hdl, Hsl.
      repeat split; try assumption.
      * rewrite <- app_assoc. reflexivity.
      * rewrite <- app_assoc. f_equal.
        replace (calls w' - calls w)%nat with (S (calls w' - S (calls w))) by lia.
        reflexivity.
    + exists w1. cbn -[Nat.sub].
      rewrite sleeps_app, deadlines_app, Hdl, Hsl, Hone. auto.
Qed.

(** A loop that throws does so at its last call of [fetch], unless it
    made no pass at all or ran out of attempts. *)
Lemma ends_abrupt (todo : list Z) (n : nat) (x : Exn) (n' : nat) (ds : list Delay) :
  ends server end_of todo n = (Abrupt x, n', ds) ->
  (x = LeanvoxExn max_retries_error)
  \/ (exists attempt e,
        In attempt todo /\ (n < n')%nat
        /\ end_of attempt (server (pred n')) = Threw e /\ x = LeanvoxExn e).
Proof.
  revert n n' ds. induction todo as [|attempt rest IH]; intros n n' ds; simpl.
  - intros H. inversion H. now left.
  - destruct (end_of attempt (server n)) as [v|d|e] eqn:E.
    + discriminate.
    + destruct (ends server end_of rest (S n)) as [[res m] ds'] eqn:E'.
      intros H. inversion H; subst.
      pose proof (ends_calls rest (S n)) as Hle. rewrite E' in Hle. simpl in Hle.
      destruct (IH _ _ _ E') as [->|(a & e & Hin & Hlt & Hend & ->)]; [now left|].
      right. exists a, e. simpl. repeat split; auto; lia.
    + intros H. inversion H; subst. right. exists attempt, e. simpl. auto.
Qed.

End Loop.

(** The values [attempt] takes, from the first on. *)
Lemma attempts_from_zero (maxRetries : Z) :
  0 <= maxRetries ->
  attempts maxRetries
  = 0 :: map Z.of_nat (seq 1 (Z.to_nat maxRetries)).
Proof.
  intros H. unfold attempts.
  replace (Z.to_nat (maxRetries + 1)) with (S (Z.to_nat maxRetries)) by lia.
  reflexivity.
Qed.

Lemma attempts_bound (maxRetries attempt : Z) :
  In attempt (attempts maxRetries) -> 0 <= attempt <= maxRetries.
Proof.
  unfold attempts. rewrite in_map_iff. intros (k & <- & Hk).
  apply in_seq in Hk. lia.
Qed.

(** ** The error classifier *)

Lemma raiseForStatus_message (status : Z) (body : value) :
  message (raiseForStatus status body)
  = nullish (Spec.error_field body "message") (VStr (Spec.default_message status)).
Proof.
  unfold raiseForStatus, STATUS_MAP, Spec.error_field, Spec.default_message.
  destruct (status =? 402); [reflexivity|].
  destruct (status =? 429); [reflexivity|].
  destruct (status =? 400); [reflexivity|].
  destruct (status =? 401); [reflexivity|].
  destruct (status =? 404); [reflexivity|].
  destruct (status =? 500); reflexivity.
Qed.

Lemma default_param_nullish (v d d' : value) :
  d <> VUndefined -> default_param (nullish v d) d' = nullish v d.
Proof. intros Hd. destruct v; simpl; try reflexivity; destruct d; simpl; congruence. Qed.

Lemma raiseForStatus_code (status : Z) (body : value) :
  code (raiseForStatus status body)
  = nullish (Spec.error_field body "code") (VStr "unknown").
Proof.
  unfold raiseForStatus, STATUS_MAP, Spec.error_field.
  destruct (status =? 402); [apply default_param_nullish; discriminate|].
  destruct (status =? 429); [apply default_param_nullish; discriminate|].
  destruct (status =? 400); [apply default_param_nullish; discriminate|].
  destruct (status =? 401); [apply default_param_nullish; discriminate|].
  destruct (status =? 404); [apply default_param_nullish; discriminate|].
  destruct (status =? 500); [apply default_param_nullish; discriminate|].
  reflexivity.
Qed.

Lemma raiseForStatus_kind (status : Z) (body : value) :
  Spec.kind_of (raiseForStatus status body) = Spec.classify status body.
Proof.
  unfold Spec.classify, Spec.taxonomy. cbn [find fst].
  destruct (Z.eqb_spec 400 status) as [<-|N400]; [reflexivity|].
  destruct (Z.eqb_spec 401 status) as [<-|N401]; [reflexivity|].
  destruct (Z.eqb_spec 402 status) as [<-|N402]; [reflexivity|].
  destruct (Z.eqb_spec 404 status) as [<-|N404]; [reflexivity|].
  destruct (Z.eqb_spec 429 status) as [<-|N429]; [reflexivity|].
  destruct (Z.eqb_spec 500 status) as [<-|N500]; [reflexivity|].
  unfold raiseForStatus, STATUS_MAP.
  destruct (Z.eqb_spec status 402); [lia|].
  destruct (Z.eqb_spec status 429); [lia|].
  destruct (Z.eqb_spec status 400); [lia|].
  destruct (Z.eqb_spec status 401); [lia|].
  destruct (Z.eqb_spec status 404); [lia|].
  destruct (Z.eqb_spec status 500); [lia|].
  reflexivity.
Qed.


(** C6: for every (httpStatus, parsedBody) the classifier builds the kind
    that the taxonomy binds to the status: invalid_request for 400,
    authentication for 401, insufficient_balance for 402 with
    [body.error.balance_cents], not_found for 404, rate_limit for 429 with
    [body.error.retry_after], server_error for 500, and the generic error
    for any other status; the error always carries the status given. *)
Theorem C6_classifier_follows_taxonomy (httpStatus : Z) (parsedBody : value) :
  Spec.kind_of (raiseForStatus httpStatus parsedBody) = Spec.classify httpStatus parsedBody
  /\ statusCode (raiseForStatus httpStatus parsedBody) = httpStatus.
Proof.
  split; [apply raiseForStatus_kind | apply raiseForStatus_statusCode].
Qed.

(** ** How a pass ends, by the kind of answer *)

Lemma ok_false_of_status (r : Response) :
  Http.status r < 200 \/ 299 < Http.status r -> ok r = false.
Proof.
  intros H. unfold ok.
  destruct (Z.leb_spec 200 (Http.status r)), (Z.leb_spec (Http.status r) 299);
    simpl; try reflexivity; lia.
Qed.

Lemma request_end_retry (c : HTTPClient) (attempt : Z) (r : Response) :
  ok r = false -> retryable (Http.status r) = true -> attempt < maxRetries c ->
  request_end c attempt (Responded r)
  = Retried (retry_after_or_backoff (headers_get (headers r) "Retry-After") attempt).
Proof.
  intros Hok Hretry Hlt. unfold request_end, status_end. rewrite Hok, Hretry.
  destruct (Z.ltb_spec attempt (maxRetries c)); [reflexivity|lia].
Qed.

Lemma request_end_exhausted (c : HTTPClient) (attempt : Z) (r : Response) :
  ok r = false -> maxRetries c <= attempt ->
  request_end c attempt (Responded r)
  = Threw (raiseForStatus (Http.status r) (error_body_value r)).
Proof.
  intros Hok Hge. unfold request_end, status_end. rewrite Hok.
  destruct (Z.ltb_spec attempt (maxRetries c)); [lia|].
  rewrite andb_false_r. reflexivity.
Qed.

Lemma request_end_final (c : HTTPClient) (attempt : Z) (r : Response) :
  ok r = false -> retryable (Http.status r) = false ->
  request_end c attempt (Responded r)
  = Threw (raiseForStatus (Http.status r) (error_body_value r)).
Proof.
  intros Hok Hretry. unfold request_end, status_end. rewrite Hok, Hretry. reflexivity.
Qed.

Lemma request_end_rejected (c : HTTPClient) (attempt : Z) (d : string) :
  attempt < maxRetries c ->
  request_end c attempt (Rejected d) = Retried (FixedDelay (backoff attempt)).
Proof.
  intros Hlt. unfold request_end, fault_end.
  destruct (Z.ltb_spec attempt (maxRetries c)); [reflexivity|lia].
Qed.

(** The run of [request] from the first call on, read through [ends]. *)
Lemma request_ends server c method path timeoutMs :
  exists w,
    request server c method path timeoutMs initial
    = (fst (fst (ends server (request_end c) (attempts (maxRetries c)) 0)), w)
    /\ calls w = snd (fst (ends server (request_end c) (attempts (maxRetries c)) 0))
    /\ sleeps (log w) = snd (ends server (request_end c) (attempts (maxRetries c)) 0)
    /\ deadlines (log w)
       = repeat (match timeoutMs with Some t => t | None => timeout c * 1000 end) (calls w).
Proof.
  unfold request.
  destruct (for_attempts_ends server _ _ _
              (request_attempt_sound server c method path
                 (match timeoutMs with Some t => t | None => timeout c * 1000 end))
              (attempts (maxRetries c)) initial)
    as (w & Hrun & Hcalls & Hsleeps & Hdeadlines).
  exists w. simpl in *. rewrite Nat.sub_0_r in Hdeadlines. auto.
Qed.

(** ** The unary executor *)

(** C1: with [maxRetries = 2] and a server that answers every attempt
    with status 500, [request] calls [fetch] exactly three times and throws
    the error classified from the last response: a [ServerError] with
    status 500. *)
Theorem C1_always_500_three_attempts server c method path timeoutMs :
  maxRetries c = 2 ->
  (forall n, exists r, server n = Responded r /\ Http.status r = 500) ->
  exists r w,
    server 2%nat = Responded r
    /\ request server c method path timeoutMs initial
       = (Abrupt (LeanvoxExn (raiseForStatus 500 (error_body_value r))), w)
    /\ calls w = 3%nat
    /\ class (raiseForStatus 500 (error_body_value r)) = ServerErrorClass
    /\ statusCode (raiseForStatus 500 (error_body_value r)) = 500.
Proof.
  intros Hmax Hall.
  destruct (Hall 0%nat) as (r0 & H0 & S0), (Hall 1%nat) as (r1 & H1 & S1),
    (Hall 2%nat) as (r2 & H2 & S2).
  exists r2.
  destruct (request_ends server c method path timeoutMs) as (w & Hrun & Hcalls & _).
  exists w. rewrite Hrun, Hcalls, Hmax.
  change (attempts 2) with [0; 1; 2]. cbn [ends].
  rewrite H0, H1, H2.
  rewrite (request_end_retry c 0 r0), (request_end_retry c 1 r1),
    (request_end_exhausted c 2 r2), S2;
    try (apply ok_false_of_status; lia); try lia;
    try (rewrite ?S0, ?S1; reflexivity).
  simpl. repeat split; reflexivity.
Qed.

Lemma C1_witness :
  maxRetries (Samples.client 2) = 2
  /\ exists r w,
      Samples.always Samples.json_500 2%nat = Responded r
      /\ request (Samples.always Samples.json_500) (Samples.client 2) "GET" "/v1/test"
                 None initial
         = (Abrupt (LeanvoxExn (raiseForStatus 500 (error_body_value r))), w)
      /\ calls w = 3%nat
      /\ class (raiseForStatus 500 (error_body_value r)) = ServerErrorClass
      /\ statusCode (raiseForStatus 500 (error_body_value r)) = 500.
Proof.
  split; [reflexivity|].
  apply (C1_always_500_three_attempts (Samples.always Samples.json_500)
           (Samples.client 2) "GET" "/v1/test" None).
  - reflexivity.
  - intros n. exists Samples.json_500. split; reflexivity.
Defined.

(** C2: when the first attempt is answered with status 400, 401, 402 or
    404, [request] calls [fetch] exactly once and throws the error
    classified for that status, whatever the retry budget:
    [InvalidRequestError], [AuthenticationError],
    [InsufficientBalanceError] and [NotFoundError] respectively. *)
Theorem C2_client_errors_are_not_retried server c method path timeoutMs r :
  0 <= maxRetries c ->
  server 0%nat = Responded r ->
  In (Http.status r) [400; 401; 402; 404] ->
  let e := raiseForStatus (Http.status r) (error_body_value r) in
  exists w,
    request server c method path timeoutMs initial = (Abrupt (LeanvoxExn e), w)
    /\ calls w = 1%nat
    /\ statusCode e = Http.status r
    /\ class e
       = (if Http.status r =? 400 then InvalidRequestErrorClass
          else if Http.status r =? 401 then AuthenticationErrorClass
          else if Http.status r =? 402 then
            InsufficientBalanceErrorClass
              (Spec.error_field (error_body_value r) "balance_cents")
          else NotFoundErrorClass).
Proof.
  intros Hmax H0 Hin e.
  destruct (request_ends server c method path timeoutMs) as (w & Hrun & Hcalls & _).
  exists w. rewrite Hrun, Hcalls, (attempts_from_zero _ Hmax). cbn [ends].
  rewrite H0.
  assert (Hend : request_end c 0 (Responded r) = Threw e).
  { apply request_end_final.
    - apply ok_false_of_status. simpl in Hin. lia.
    - simpl in Hin.
      destruct Hin as [<-|[<-|[<-|[<-|[]]]]]; reflexivity. }
  rewrite Hend. simpl. repeat split.
  - apply raiseForStatus_statusCode.
  - subst e. simpl in Hin.
    destruct Hin as [E|[E|[E|[E|[]]]]]; rewrite <- E; reflexivity.
Qed.

Lemma C2_witness :
  0 <= maxRetries (Samples.client 2)
  /\ exists w,
      request (Samples.always Samples.bad_request) (Samples.client 2) "POST" "/v1/test"
              None initial
      = (Abrupt (LeanvoxExn
                   (raiseForStatus 400 (error_body_value Samples.bad_request))), w)
      /\ calls w = 1%nat
      /\ statusCode (raiseForStatus 400 (error_body_value Samples.bad_request)) = 400
      /\ class (raiseForStatus 400 (error_body_value Samples.bad_request))
         = InvalidRequestErrorClass.
Proof.
  split; [simpl; lia|].
  apply (C2_client_errors_are_not_retried (Samples.always Samples.bad_request)
           (Samples.client 2) "POST" "/v1/test" None Samples.bad_request).
  - simpl. lia.
  - reflexivity.
  - simpl. left. reflexivity.
Defined.

(** Passes that all end in a retry are skipped over. *)
Lemma ends_skip_retries {A : Type} (server : nat -> Outcome)
    (end_of : Z -> Outcome -> AttemptEnd A) (m start : nat) (todo : list Z) :
  (forall i, (start <= i < start + m)%nat ->
             exists d, end_of (Z.of_nat i) (server i) = Retried d) ->
  fst (ends server end_of (map Z.of_nat (seq start m) ++ todo) start)
  = fst (ends server end_of todo (start + m)).
Proof.
  revert start. induction m as [|m IH]; intros start Hretry.
  - simpl. rewrite Nat.add_0_r. reflexivity.
  - cbn [seq map app ends].
    destruct (Hretry start) as (d & ->); [lia|].
    specialize (IH (S start)).
    replace (start + S m)%nat with (S start + m)%nat by lia.
    rewrite <- IH by (intros i Hi; apply Hretry; lia).
    destruct (ends server end_of (map Z.of_nat (seq (S start) m) ++ todo) (S start))
      as [[res n'] ds].
    reflexivity.
Qed.

Lemma attempts_split (maxRetries : Z) (n : nat) :
  Z.of_nat n <= maxRetries ->
  attempts maxRetries
  = (map Z.of_nat (seq 0 n)
     ++ Z.of_nat n :: map Z.of_nat (seq (S n) (Z.to_nat maxRetries - n)))%list.
Proof.
  intros H. unfold attempts.
  replace (Z.to_nat (maxRetries + 1)) with (n + S (Z.to_nat maxRetries - n))%nat by lia.
  rewrite seq_app, map_app. reflexivity.
Qed.

(** C7: when the first [n] attempts are transport failures, retries
    remain, and attempt [n] is answered with a status that is neither a
    success nor retryable (such as 400), [request] throws the error
    classified for that status, with that status, after [n + 1] calls of
    [fetch]; it does not throw a network error. *)
Theorem C7_mixed_failures_keep_classification server c method path timeoutMs
    (n : nat) (r : Response) :
  Z.of_nat n <= maxRetries c ->
  (forall i, (i < n)%nat -> exists d, server i = Rejected d) ->
  server n = Responded r ->
  ok r = false ->
  retryable (Http.status r) = false ->
  let e := raiseForStatus (Http.status r) (error_body_value r) in
  exists w,
    request server c method path timeoutMs initial = (Abrupt (LeanvoxExn e), w)
    /\ calls w = S n
    /\ statusCode e = Http.status r
    /\ Spec.kind_of e = Spec.classify (Http.status r) (error_body_value r).
Proof.
  intros Hn Hfaults Hlast Hok Hfinal e.
  destruct (request_ends server c method path timeoutMs) as (w & Hrun & Hcalls & _).
  exists w. rewrite Hrun, Hcalls, (attempts_split _ n Hn).
  rewrite ends_skip_retries.
  - cbn [ends Nat.add]. rewrite Hlast, (request_end_final c _ r Hok Hfinal).
    simpl. repeat split.
    + apply raiseForStatus_statusCode.
    + apply raiseForStatus_kind.
  - intros i Hi. destruct (Hfaults i) as (d & ->); [lia|].
    exists (FixedDelay (backoff (Z.of_nat i))). apply request_end_rejected. lia.
Qed.

Lemma C7_witness :
  let e := raiseForStatus 400 (error_body_value Samples.bad_request) in
  exists w,
    request Samples.flaky (Samples.client 2) "POST" "/v1/test" None initial
    = (Abrupt (LeanvoxExn e), w)
    /\ calls w = 3%nat
    /\ statusCode e = 400
    /\ Spec.kind_of e = Spec.classify 400 (error_body_value Samples.bad_request).
Proof.
  apply (C7_mixed_failures_keep_classification Samples.flaky (Samples.client 2)
           "POST" "/v1/test" None 2 Samples.bad_request).
  - simpl. lia.
  - intros i Hi. exists "ECONNREFUSED".
    destruct i as [|[|i]]; [reflexivity | reflexivity | lia].
  - reflexivity.
  - reflexivity.
  - reflexivity.
Defined.

(** ** The status carried by raised errors *)

Lemma requestStream_ends server c method path timeoutMs :
  exists w,
    requestStream server c method path timeoutMs initial
    = (fst (fst (ends server (requestStream_end c) (attempts (maxRetries c)) 0)), w)
    /\ calls w = snd (fst (ends server (requestStream_end c) (attempts (maxRetries c)) 0))
    /\ deadlines (log w)
       = repeat (match timeoutMs with Some t => t | None => 120000 end) (calls w).
Proof.
  unfold requestStream.
  destruct (for_attempts_ends server _ _ _
              (requestStream_attempt_sound server c method path
                 (match timeoutMs with Some t => t | None => 120000 end))
              (attempts (maxRetries c)) initial)
    as (w & Hrun & Hcalls & Hsleeps & Hdeadlines).
  exists w. simpl in *. rewrite Nat.sub_0_r in Hdeadlines. auto.
Qed.

Lemma upload_ends server c path timeoutMs :
  exists w,
    upload server c path timeoutMs initial
    = (fst (fst (ends server (upload_end c) (attempts (maxRetries c)) 0)), w)
    /\ calls w = snd (fst (ends server (upload_end c) (attempts (maxRetries c)) 0))
    /\ sleeps (log w) = snd (ends server (upload_end c) (attempts (maxRetries c)) 0)
    /\ deadlines (log w)
       = repeat (match timeoutMs with Some t => t | None => timeout c * 1000 end) (calls w).
Proof.
  unfold upload.
  destruct (for_attempts_ends server _ _ _
              (upload_attempt_sound server c path
                 (match timeoutMs with Some t => t | None => timeout c * 1000 end))
              (attempts (maxRetries c)) initial)
    as (w & Hrun & Hcalls & Hsleeps & Hdeadlines).
  exists w. simpl in *. rewrite Nat.sub_0_r in Hdeadlines. auto.
Qed.

Lemma fault_end_threw {A : Type} c attempt d o e :
  @fault_end A c attempt d = Threw e -> threw_from o e.
Proof.
  unfold fault_end. destruct (attempt <? maxRetries c); [discriminate|].
  intros H. inversion H. left. eauto.
Qed.

Lemma status_end_threw {A : Type} c attempt r d e :
  @status_end A c attempt r d = Threw e -> threw_from (Responded r) e.
Proof.
  unfold status_end.
  destruct (retryable (Http.status r) && (attempt <? maxRetries c)); [discriminate|].
  intros H. inversion H. right. eauto.
Qed.

Lemma request_end_threw c attempt o e :
  request_end c attempt o = Threw e -> threw_from o e.
Proof.
  unfold request_end. destruct o as [r|d]; [|apply fault_end_threw].
  destruct (ok r); [|apply status_end_threw].
  destruct (Http.status r =? 204); [discriminate|].
  destruct (json r); [discriminate|apply fault_end_threw].
Qed.

Lemma requestStream_end_threw c attempt o e :
  requestStream_end c attempt o = Threw e -> threw_from o e.
Proof.
  unfold requestStream_end. destruct o as [r|d]; [|apply fault_end_threw].
  destruct (ok r), (stream r); try apply status_end_threw. discriminate.
Qed.

Lemma upload_end_threw c attempt o e :
  upload_end c attempt o = Threw e -> threw_from o e.
Proof.
  unfold upload_end. destruct o as [r|d]; [|apply fault_end_threw].
  destruct (ok r); [|apply status_end_threw].
  destruct (json r); [discriminate|apply fault_end_threw].
Qed.

(** ** The body handed to the classifier *)

(** C5, as amended: the classifier does not fail on a body without an
    [error] member (absent, [null], an empty object): the error then has
    the default message and the code "unknown".  When the body of an
    error response cannot be parsed, the executor puts
    [{ error: { message: statusText } }] in its place, so the error raised
    has the status text of the response as its message, and the code
    "unknown". *)
Theorem C5_unparsable_body_takes_status_text server c method path timeoutMs
    (attempt : Z) (w : World) (r : Response) (d : string) :
  server (calls w) = Responded r ->
  ok r = false ->
  json r = Unparsable d ->
  retryable (Http.status r) && (attempt <? maxRetries c) = false ->
  let e := raiseForStatus (Http.status r)
             (VObj [("error", VObj [("message", VStr (statusText r))])]) in
  (exists w',
      request_attempt server c method path timeoutMs attempt w
      = (Abrupt (LeanvoxExn e), w'))
  /\ message e = VStr (statusText r)
  /\ code e = VStr "unknown"
  /\ statusCode e = Http.status r
  /\ (forall status body,
         opt_get body "error" = VUndefined ->
         message (raiseForStatus status body) = VStr (Spec.default_message status)
         /\ code (raiseForStatus status body) = VStr "unknown").
Proof.
  intros Hanswer Hok Hjson Hfinal e.
  split; [|split; [|split; [|split]]].
  - destruct (request_attempt_sound server c method path timeoutMs attempt w)
      as (evs & Hrun & _).
    rewrite Hrun, Hanswer. eexists.
    unfold request_end, status_end, error_body_value.
    rewrite Hok, Hfinal, Hjson. reflexivity.
  - subst e. rewrite raiseForStatus_message. reflexivity.
  - subst e. rewrite raiseForStatus_code. reflexivity.
  - apply raiseForStatus_statusCode.
  - intros status body Habsent.
    rewrite raiseForStatus_message, raiseForStatus_code.
    unfold Spec.error_field. rewrite Habsent. split; reflexivity.
Qed.

Lemma C5_witness :
  let e := raiseForStatus 500
             (VObj [("error", VObj [("message", VStr "Internal Server Error")])]) in
  (exists w',
      request_attempt (Samples.always Samples.html_500) (Samples.client 0)
                      "GET" "/v1/voices" 30000 0 initial
      = (Abrupt (LeanvoxExn e), w'))
  /\ message e = VStr "Internal Server Error"
  /\ code e = VStr "unknown"
  /\ statusCode e = 500
  /\ (forall status body,
         opt_get body "error" = VUndefined ->
         message (raiseForStatus status body) = VStr (Spec.default_message status)
         /\ code (raiseForStatus status body) = VStr "unknown").
Proof.
  apply (C5_unparsable_body_takes_status_text (Samples.always Samples.html_500)
           (Samples.client 0) "GET" "/v1/voices" 30000 0 initial Samples.html_500
           "Unexpected token < in JSON at position 0");
    reflexivity.
Defined.

(** C5 as stated fails: a 500 answer whose body is not JSON raises an
    error whose message is the status text, not
    "API error (status 500)". *)
Lemma C5_counterexample :
  exists w e,
    request (Samples.always Samples.html_500) (Samples.client 0) "GET" "/v1/voices"
            None initial
    = (Abrupt (LeanvoxExn e), w)
    /\ json Samples.html_500 = Unparsable "Unexpected token < in JSON at position 0"
    /\ message e = VStr "Internal Server Error"
    /\ message e <> VStr (Spec.default_message 500).
Proof.
  eexists. eexists. split; [reflexivity|].
  split; [reflexivity|]. split; [reflexivity|]. discriminate.
Qed.

(** ** The delay of a retry *)

Lemma retry_after_or_backoff_delay (attempt : Z) (r : Response) :
  0 <= attempt -> ok r = false ->
  retry_after_or_backoff (headers_get (headers r) "Retry-After") attempt
  = retry_delay attempt (Responded r).
Proof.
  intros Hpos Hok. unfold retry_delay, retry_after_or_backoff. rewrite Hok.
  destruct (headers_get (headers r) "Retry-After") as [[|ch rest]|];
    simpl; rewrite ?backoff_schedule by assumption; reflexivity.
Qed.

Lemma request_end_retried (c : HTTPClient) (attempt : Z) (o : Outcome) (d : Delay) :
  0 <= attempt ->
  request_end c attempt o = Retried d ->
  d = retry_delay attempt o /\ attempt < maxRetries c.
Proof.
  intros Hpos. unfold request_end, fault_end, status_end.
  destruct o as [r|msg].
  - destruct (ok r) eqn:Hok.
    + destruct (Http.status r =? 204); [discriminate|].
      destruct (json r); [discriminate|].
      destruct (Z.ltb_spec attempt (maxRetries c)) as [Hlt|]; [|discriminate].
      intros Heq. inversion Heq. unfold retry_delay. rewrite Hok.
      rewrite backoff_schedule by assumption. auto.
    + destruct (retryable (Http.status r)); simpl; [|discriminate].
      destruct (Z.ltb_spec attempt (maxRetries c)) as [Hlt|]; [|discriminate].
      intros Heq. inversion Heq. rewrite retry_after_or_backoff_delay by assumption. auto.
  - destruct (Z.ltb_spec attempt (maxRetries c)) as [Hlt|]; [|discriminate].
    intros Heq. inversion Heq. unfold retry_delay.
    rewrite backoff_schedule by assumption. auto.
Qed.

Lemma ends_progress {A : Type} (server : nat -> Outcome)
    (end_of : Z -> Outcome -> AttemptEnd A) (todo : list Z) (n : nat) :
  todo <> [] -> (n < snd (fst (ends server end_of todo n)))%nat.
Proof.
  destruct todo as [|attempt rest]; [congruence|]. intros _. simpl.
  destruct (end_of attempt (server n)); simpl; try lia.
  pose proof (ends_calls server end_of rest (S n)) as Hle.
  destruct (ends server end_of rest (S n)) as [[res n'] ds]. simpl in *. lia.
Qed.

(** The delays slept by [request] are those of the answers to all its
    calls of [fetch] but the last. *)
Lemma request_ends_delays (server : nat -> Outcome) (c : HTTPClient) (k n : nat) :
  maxRetries c + 1 <= Z.of_nat (n + k) ->
  snd (ends server (request_end c) (map Z.of_nat (seq n k)) n)
  = map (fun i => retry_delay (Z.of_nat i) (server i))
        (seq n (pred (snd (fst (ends server (request_end c) (map Z.of_nat (seq n k)) n)) - n))).
Proof.
  revert n. induction k as [|k IH]; intros n Hlast.
  - simpl. rewrite Nat.sub_diag. reflexivity.
  - cbn [seq map ends].
    destruct (request_end c (Z.of_nat n) (server n)) as [v|d|e] eqn:E.
    + cbn [fst snd]. replace (S n - n)%nat with 1%nat by lia. reflexivity.
    + destruct (request_end_retried c _ _ _ (Nat2Z.is_nonneg n) E) as (-> & Hlt).
      specialize (IH (S n)).
      assert (Hrest : map Z.of_nat (seq (S n) k) <> []).
      { destruct k; [lia|]. discriminate. }
      pose proof (ends_progress server (request_end c) _ (S n) Hrest) as Hprog.
      destruct (ends server (request_end c) (map Z.of_nat (seq (S n) k)) (S n))
        as [[res n'] ds].
      cbn [fst snd] in *. rewrite IH by lia.
      replace (pred (n' - n)) with (S (pred (n' - S n))) by lia.
      reflexivity.
    + cbn [fst snd]. replace (S n - n)%nat with 1%nat by lia. reflexivity.
Qed.

(** C3, as amended: the sleep before a retry of [request] is
    [Retry-After] times 1000 ms whenever the retried answer is an error
    response (429, 500, 502, 503, 504 alike) that has a [Retry-After]
    header that is not empty; it is the schedule [[1000, 2000, 4000]]
    indexed by the attempt and clamped to its last entry when the header
    is absent or empty, and for every transport failure. *)
Theorem C3_retry_delays server c method path timeoutMs :
  sleeps (log (snd (request server c method path timeoutMs initial)))
  = map (fun i => retry_delay (Z.of_nat i) (server i))
        (seq 0 (pred (calls (snd (request server c method path timeoutMs initial))))).
Proof.
  destruct (request_ends server c method path timeoutMs)
    as (w & Hrun & Hcalls & Hsleeps & _).
  rewrite Hrun. cbn [snd]. rewrite Hsleeps, Hcalls. unfold attempts.
  rewrite request_ends_delays by lia.
  rewrite Nat.sub_0_r. reflexivity.
Qed.

(** C3 as stated fails: a 503 answer with [Retry-After: 5] is retried
    after the delay of the header, 5000 ms, not after the 1000 ms of the
    schedule. *)
Lemma C3_counterexample :
  Http.status Samples.unavailable = 503
  /\ sleeps (log (snd (request (Samples.once Samples.unavailable) (Samples.client 1)
                               "GET" "/v1/test" None initial)))
     = [RetryAfterDelay "5"]
  /\ RetryAfterDelay "5" <> FixedDelay (Spec.schedule 0)
  /\ Millis.delay_ms (RetryAfterDelay "5") = Some (inject_Z 5000)
  /\ Millis.delay_ms (FixedDelay (Spec.schedule 0)) = Some (inject_Z 1000).
Proof.
  split; [reflexivity|]. split; [reflexivity|]. split; [discriminate|].
  split; reflexivity.
Qed.

(** ** The multipart upload *)

(** [upload] never sleeps for the time of a header: all its delays come
    from the schedule. *)
Lemma upload_end_retried (c : HTTPClient) (attempt : Z) (o : Outcome) (d : Delay) :
  upload_end c attempt o = Retried d -> d = FixedDelay (backoff attempt).
Proof.
  unfold upload_end, fault_end, status_end. destruct o as [r|msg].
  - destruct (ok r).
    + destruct (json r); [discriminate|].
      destruct (attempt <? maxRetries c); [|discriminate].
      intros Heq. inversion Heq. reflexivity.
    + destruct (retryable (Http.status r) && (attempt <? maxRetries c)); [|discriminate].
      intros Heq. inversion Heq. reflexivity.
  - destruct (attempt <? maxRetries c); [|discriminate].
    intros Heq. inversion Heq. reflexivity.
Qed.

(** C4 does not hold of [upload]: answered 429 with [Retry-After: 0.01]
    while a retry remains, [upload] sleeps the 1000 ms of the schedule,
    where [request] sleeps the 10 ms of the header. *)
Theorem C4_upload_ignores_retry_after :
  Http.status Samples.rate_limited = 429
  /\ headers_get (headers Samples.rate_limited) "Retry-After" = Some "0.01"
  /\ sleeps (log (snd (upload (Samples.once Samples.rate_limited) (Samples.client 1)
                              "/v1/files/extract-text" None initial)))
     = [FixedDelay 1000]
  /\ sleeps (log (snd (request (Samples.once Samples.rate_limited) (Samples.client 1)
                               "POST" "/v1/files/extract-text" None initial)))
     = [RetryAfterDelay "0.01"]
  /\ Millis.delay_ms (FixedDelay 1000) = Some (inject_Z 1000)
  /\ Millis.delay_ms (RetryAfterDelay "0.01") = Some (inject_Z 10).
Proof.
  repeat split; reflexivity.
Qed.

(** ** The deadline of an attempt *)

(** C10: without a per-call override, every attempt of [requestStream]
    runs under a deadline of 120000 ms, whatever the timeout the client
    was configured with, while every attempt of [request] and of [upload]
    runs under the configured timeout times 1000 ms. *)
Theorem C10_stream_deadline_is_fixed server c method path :
  deadlines (log (snd (requestStream server c method path None initial)))
  = repeat 120000 (calls (snd (requestStream server c method path None initial)))
  /\ deadlines (log (snd (request server c method path None initial)))
     = repeat (timeout c * 1000) (calls (snd (request server c method path None initial)))
  /\ deadlines (log (snd (upload server c path None initial)))
     = repeat (timeout c * 1000) (calls (snd (upload server c path None initial))).
Proof.
  destruct (requestStream_ends server c method path None) as (ws & Hs & _ & Hds).
  destruct (request_ends server c method path None) as (wr & Hr & _ & _ & Hdr).
  destruct (upload_ends server c path None) as (wu & Hu & _ & _ & Hdu).
  rewrite Hs, Hr, Hu. cbn [snd]. auto.
Qed.

(** ** The job poller *)

Section PollerProperties.

Import Client.

Variable api : nat -> JobOutcome.

(** Once the service answers a job that is completed or failed, the loop
    ends with that job, provided the fuel covers the polls before it. *)
Lemma poll_reaches_terminal (n : nat) (final : Job) :
  (forall k, (k < n)%nat -> exists j, api k = JobReturned j /\ polling j = true) ->
  api n = JobReturned final ->
  polling final = false ->
  forall (fuel i : nat) (current : Job) (w : PollWorld),
    api_calls w = S i ->
    api i = JobReturned current ->
    (i <= n)%nat ->
    (n - i <= fuel)%nat ->
    exists w', poll api fuel current w = (Normal (Some final), w') /\ api_calls w' = S n.
Proof.
  intros Hbefore Hfinal Hterminal.
  induction fuel as [|fuel IH]; intros i current w Hcalls Hcurrent Hle Hfuel.
  - assert (i = n) by lia. subst i.
    rewrite Hfinal in Hcurrent. inversion Hcurrent. subst current.
    exists w. simpl. rewrite Hterminal. auto.
  - destruct (Nat.eq_dec i n) as [->|Hne].
    + rewrite Hfinal in Hcurrent. inversion Hcurrent. subst current.
      exists w. simpl. rewrite Hterminal. auto.
    + destruct (Hbefore i) as (j & Hj & Hpolling); [lia|].
      rewrite Hj in Hcurrent. inversion Hcurrent. subst j.
      assert (Hnext : exists next, api (S i) = JobReturned next).
      { destruct (Nat.eq_dec (S i) n) as [->|Hne'].
        - eauto.
        - destruct (Hbefore (S i)) as (j' & Hj' & _); [lia|]. eauto. }
      destruct Hnext as (next & Hnext).
      cbn [poll]. rewrite Hpolling.
      unfold bind, wait, getJob, api_call. cbn [api_calls poll_log].
      rewrite Hcalls, Hnext.
      apply IH with (i := S i); auto; simpl; lia.
Qed.

(** C9: when the job reaches a terminal state, the poller throws an
    [InvalidRequestError] whose message is the job's [error], or
    "Async job failed" when it has none, if the state is [failed]; if it
    is [completed], the poller returns a result whose [audioUrl] is the
    job's (empty when it has none), whose model, voice and number of
    characters are those of the options of the call (model "standard" and
    an empty voice when not given), and whose cost is zero. *)
Theorem C9_poller_terminal_states (options : GenerateOptions) (n fuel : nat)
    (current : Job) :
  (forall k, (k < n)%nat -> exists j, api k = JobReturned j /\ polling j = true) ->
  api n = JobReturned current ->
  (n <= fuel)%nat ->
  (Client.status current = "failed" ->
   exists w,
     generateAsyncAndPoll api fuel options poll_initial
     = (Abrupt (LeanvoxExn
                  (mkError InvalidRequestErrorClass
                           (VStr (or_default (error current) "Async job failed"))
                           (VStr "invalid_request") 400 VUndefined)), w)
     /\ api_calls w = S n)
  /\ (Client.status current = "completed" ->
      exists w,
        generateAsyncAndPoll api fuel options poll_initial
        = (Normal (Some (mkResult (or_default (audioUrl current) "")
                                  (or_default (model options) "standard")
                                  (or_default (voice options) "")
                                  (Z.of_nat (String.length (text options)))
                                  0 None None)), w)
        /\ api_calls w = S n).
Proof.
  intros Hbefore Hcurrent Hfuel.
  assert (Hfirst : exists job, api 0%nat = JobReturned job).
  { destruct n as [|n'].
    - eauto.
    - destruct (Hbefore 0%nat) as (j & Hj & _); [lia|]. eauto. }
  destruct Hfirst as (job & Hjob).
  assert (Hrun : polling current = false ->
                 exists w,
                   bind (generateAsync api options) (poll api fuel) poll_initial
                   = (Normal (Some current), w) /\ api_calls w = S n).
  { intros Hterminal.
    unfold bind at 1. unfold generateAsync, api_call. cbn [api_calls poll_log poll_initial].
    rewrite Hjob.
    apply (poll_reaches_terminal n current Hbefore Hcurrent Hterminal fuel 0%nat);
      auto; simpl; lia. }
  split; intros Hstatus.
  - destruct Hrun as (w & Hw & Hcalls).
    { unfold polling. rewrite Hstatus. reflexivity. }
    exists w. split; [|exact Hcalls].
    unfold generateAsyncAndPoll.
    unfold bind in *. destruct (generateAsync api options poll_initial) as [[job'|x] w1];
      [|discriminate].
    rewrite Hw, Hstatus. reflexivity.
  - destruct Hrun as (w & Hw & Hcalls).
    { unfold polling. rewrite Hstatus. reflexivity. }
    exists w. split; [|exact Hcalls].
    unfold generateAsyncAndPoll.
    unfold bind in *. destruct (generateAsync api options poll_initial) as [[job'|x] w1];
      [|discriminate].
    rewrite Hw, Hstatus. reflexivity.
Qed.

End PollerProperties.

Lemma C9_witness :
  exists w,
    Client.generateAsyncAndPoll (JobSamples.service JobSamples.completed) 1
                                JobSamples.long_text Client.poll_initial
    = (Normal (Some (Client.mkResult "X" "pro" "emma" 49 0 None None)), w)
    /\ Client.api_calls w = 2%nat.
Proof.
  destruct (C9_poller_terminal_states (JobSamples.service JobSamples.completed)
              JobSamples.long_text 1 1 JobSamples.completed) as [_ Hcompleted].
  - intros k Hk. exists JobSamples.pending.
    destruct k; [split; reflexivity | lia].
  - reflexivity.
  - lia.
  - apply Hcompleted. reflexivity.
Defined.

(** ** The cases of the test suite *)

Example retries_on_429 :
  exists w,
    request (Samples.once Samples.rate_limited) (Samples.client 1) "GET" "/v1/test"
            None initial
    = (Normal (VObj [("ok", VBool true)]), w)
    /\ calls w = 2%nat
    /\ sleeps (log w) = [RetryAfterDelay "0.01"]
    /\ deadlines (log w) = [30000; 30000].
Proof. eexists. repeat split; reflexivity. Qed.

Example network_error_after_retries :
  exists w,
    request (fun _ => Rejected "ECONNREFUSED") (Samples.client 1) "GET" "/v1/test"
            None initial
    = (Abrupt (LeanvoxExn (mkError LeanvoxErrorClass (VStr "Network error: ECONNREFUSED")
                                   (VStr "network_error") 0 VUndefined)), w)
    /\ calls w = 2%nat
    /\ sleeps (log w) = [FixedDelay 1000].
Proof. eexists. repeat split; reflexivity. Qed.

Example no_content :
  fst (request (Samples.always (mkResponse 204 "No Content" [] (Unparsable "") None))
               (Samples.client 2) "DELETE" "/v1/test" None initial)
  = Normal VUndefined.
Proof. reflexivity. Qed.

Example negative_budget_makes_no_attempt :
  request (Samples.always Samples.accepted) (Samples.client (-1)) "GET" "/v1/test"
          None initial
  = (Abrupt (LeanvoxExn max_retries_error), initial).
Proof. reflexivity. Qed.

Example raise_418 :
  raiseForStatus 418 (VObj [("error", VObj [("message", VStr "teapot")])])
  = mkError LeanvoxErrorClass (VStr "teapot") (VStr "unknown") 418
            (VObj [("error", VObj [("message", VStr "teapot")])]).
Proof. reflexivity. Qed.

Example raise_400_empty :
  raiseForStatus 400 (VObj [])
  = mkError InvalidRequestErrorClass (VStr "API error (status 400)") (VStr "unknown")
            400 (VObj []).
Proof. reflexivity. Qed.

Example poll_failed :
  fst (Client.generateAsyncAndPoll (JobSamples.service JobSamples.failed) 5
                                   JobSamples.long_text Client.poll_initial)
  = Abrupt (LeanvoxExn (mkError InvalidRequestErrorClass (VStr "bad text")
                                (VStr "invalid_request") 400 VUndefined)).
Proof. reflexivity. Qed.

Example poll_stuck_uses_up_the_fuel :
  fst (Client.generateAsyncAndPoll (JobSamples.service JobSamples.pending) 5
                                   JobSamples.long_text Client.poll_initial)
  = Normal None.
Proof. reflexivity. Qed.

(** * Further properties of the code *)

(** ** The number of attempts *)

Lemma ends_calls_upper {A : Type} (server : nat -> Outcome)
    (end_of : Z -> Outcome -> AttemptEnd A) (todo : list Z) (n : nat) :
  (snd (fst (ends server end_of todo n)) <= n + List.length todo)%nat.
Proof.
  revert n. induction todo as [|attempt rest IH]; intros n; simpl; [lia|].
  destruct (end_of attempt (server n)); simpl; try lia.
  specialize (IH (S n)).
  destruct (ends server end_of rest (S n)) as [[res n'] ds]. simpl in *. lia.
Qed.

Lemma attempts_length (maxRetries : Z) :
  List.length (attempts maxRetries) = Z.to_nat (maxRetries + 1).
Proof. unfold attempts. rewrite length_map, length_seq. reflexivity. Qed.

(** X1: none of the three methods calls [fetch] more than
    [maxRetries + 1] times. *)
Theorem X1_attempts_bounded server c method path timeoutMs :
  (calls (snd (request server c method path timeoutMs initial))
   <= Z.to_nat (maxRetries c + 1))%nat
  /\ (calls (snd (requestStream server c method path timeoutMs initial))
      <= Z.to_nat (maxRetries c + 1))%nat
  /\ (calls (snd (upload server c path timeoutMs initial))
      <= Z.to_nat (maxRetries c + 1))%nat.
Proof.
  destruct (request_ends server c method path timeoutMs) as (wr & Hr & Hcr & _).
  destruct (requestStream_ends server c method path timeoutMs) as (ws & Hs & Hcs & _).
  destruct (upload_ends server c path timeoutMs) as (wu & Hu & Hcu & _).
  rewrite Hr, Hs, Hu. cbn [snd]. rewrite Hcr, Hcs, Hcu.
  pose proof (ends_calls_upper server (request_end c) (attempts (maxRetries c)) 0).
  pose proof (ends_calls_upper server (requestStream_end c) (attempts (maxRetries c)) 0).
  pose proof (ends_calls_upper server (upload_end c) (attempts (maxRetries c)) 0).
  rewrite attempts_length in *. simpl in *. auto.
Qed.

(** ** Where the loop ends *)

Lemma network_error_not_max_retries (d : string) : network_error d <> max_retries_error.
Proof. unfold network_error, max_retries_error, new_LeanvoxError. congruence. Qed.

Lemma raiseForStatus_body (status : Z) (body : value) :
  Errors.body (raiseForStatus status body) = body.
Proof.
  unfold raiseForStatus, STATUS_MAP.
  destruct (status =? 402); [reflexivity|].
  destruct (status =? 429); [reflexivity|].
  destruct (status =? 400); [reflexivity|].
  destruct (status =? 401); [reflexivity|].
  destruct (status =? 404); [reflexivity|].
  destruct (status =? 500); reflexivity.
Qed.

Lemma raiseForStatus_not_max_retries (status : Z) (body : value) :
  raiseForStatus status body <> max_retries_error.
Proof.
  intros Heq.
  pose proof (raiseForStatus_body status body) as Hbody.
  pose proof (raiseForStatus_code status body) as Hcode.
  rewrite Heq in Hbody, Hcode. simpl in Hbody. subst body.
  simpl in Hcode. discriminate.
Qed.

Lemma threw_from_not_max_retries (o : Outcome) (e : LeanvoxError) :
  threw_from o e -> e <> max_retries_error.
Proof.
  intros [(d & ->)|(r & _ & ->)];
    [apply network_error_not_max_retries | apply raiseForStatus_not_max_retries].
Qed.

(** When only passes before the last can end in a retry, the loop never
    falls through. *)
Lemma ends_inside {A : Type} (server : nat -> Outcome)
    (end_of : Z -> Outcome -> AttemptEnd A) (budget : Z) :
  (forall attempt o d, end_of attempt o = Retried d -> attempt < budget) ->
  forall (k n : nat),
    (1 <= k)%nat ->
    budget + 1 <= Z.of_nat (n + k) ->
    (n < snd (fst (ends server end_of (map Z.of_nat (seq n k)) n)))%nat
    /\ match fst (fst (ends server end_of (map Z.of_nat (seq n k)) n)) with
       | Normal _ => True
       | Abrupt x =>
           exists attempt e,
             end_of attempt
                    (server (pred (snd (fst (ends server end_of
                                               (map Z.of_nat (seq n k)) n)))))
             = Threw e
             /\ x = LeanvoxExn e
       end.
Proof.
  intros Hbudget. induction k as [|k IH]; intros n Hk Hlast; [lia|].
  cbn [seq map ends].
  destruct (end_of (Z.of_nat n) (server n)) as [v|d|e] eqn:E; cbn [fst snd].
  - split; [lia|exact I].
  - pose proof (Hbudget _ _ _ E) as Hlt.
    destruct (IH (S n)) as (Hprog & Hres); [lia|lia|].
    destruct (ends server end_of (map Z.of_nat (seq (S n) k)) (S n)) as [[res n'] ds].
    cbn [fst snd] in *. split; [lia|exact Hres].
  - split; [lia|]. exists (Z.of_nat n), e. simpl. auto.
Qed.

Lemma fault_end_retried {A : Type} c attempt msg d :
  @fault_end A c attempt msg = Retried d -> attempt < maxRetries c.
Proof.
  unfold fault_end. destruct (Z.ltb_spec attempt (maxRetries c)); [auto|discriminate].
Qed.

Lemma status_end_retried {A : Type} c attempt r d0 d :
  @status_end A c attempt r d0 = Retried d -> attempt < maxRetries c.
Proof.
  unfold status_end. destruct (retryable (Http.status r)); simpl; [|discriminate].
  destruct (Z.ltb_spec attempt (maxRetries c)); [auto|discriminate].
Qed.

Lemma request_end_budget c attempt o d :
  request_end c attempt o = Retried d -> attempt < maxRetries c.
Proof.
  unfold request_end. destruct o as [r|msg]; [|apply fault_end_retried].
  destruct (ok r); [|apply status_end_retried].
  destruct (Http.status r =? 204); [discriminate|].
  destruct (json r); [discriminate|apply fault_end_retried].
Qed.

Lemma requestStream_end_budget c attempt o d :
  requestStream_end c attempt o = Retried d -> attempt < maxRetries c.
Proof.
  unfold requestStream_end. destruct o as [r|msg]; [|apply fault_end_retried].
  destruct (ok r), (stream r); try apply status_end_retried. discriminate.
Qed.

Lemma upload_end_budget c attempt o d :
  upload_end c attempt o = Retried d -> attempt < maxRetries c.
Proof.
  unfold upload_end. destruct o as [r|msg]; [|apply fault_end_retried].
  destruct (ok r); [|apply status_end_retried].
  destruct (json r); [discriminate|apply fault_end_retried].
Qed.

(** ** Retries that end well, and retries that do not *)

Lemma request_end_failure (c : HTTPClient) (attempt : Z) (o : Outcome) :
  retryable_failure o -> attempt < maxRetries c ->
  exists d, request_end c attempt o = Retried d.
Proof.
  intros Hfail Hlt. destruct o as [r|msg].
  - destruct Hfail as (Hok & Hretry). eexists. apply request_end_retry; assumption.
  - eexists. apply request_end_rejected. assumption.
Qed.

(** X4: when the first [n] attempts of [request] meet retryable failures
    (a rejected [fetch], or status 429, 500, 502, 503 or 504), [n] is
    within the retry budget, and attempt [n] is answered with a success
    other than 204 whose body parses, [request] returns that body after
    exactly [n + 1] calls of [fetch] and [n] sleeps. *)
Theorem X4_success_after_retries server c method path timeoutMs
    (n : nat) (r : Response) (v : value) :
  Z.of_nat n <= maxRetries c ->
  (forall i, (i < n)%nat -> retryable_failure (server i)) ->
  server n = Responded r ->
  ok r = true ->
  Http.status r <> 204 ->
  json r = Parsed v ->
  exists w,
    request server c method path timeoutMs initial = (Normal v, w)
    /\ calls w = S n
    /\ sleeps (log w) = map (fun i => retry_delay (Z.of_nat i) (server i)) (seq 0 n).
Proof.
  intros Hn Hfail Hlast Hok H204 Hjson.
  destruct (request_ends server c method path timeoutMs)
    as (w & Hrun & Hcalls & Hsleeps & _).
  assert (Hends : fst (ends server (request_end c) (attempts (maxRetries c)) 0)
                  = (Normal v, S n)).
  { rewrite (attempts_split _ n Hn), ends_skip_retries.
    - cbn [ends Nat.add]. rewrite Hlast. unfold request_end. rewrite Hok, Hjson.
      destruct (Z.eqb_spec (Http.status r) 204); [contradiction|reflexivity].
    - intros i Hi. apply request_end_failure; [apply Hfail|]; lia. }
  exists w. rewrite Hrun, Hcalls, Hsleeps, Hends. cbn [fst snd].
  repeat split.
  unfold attempts. rewrite request_ends_delays by lia.
  fold (attempts (maxRetries c)). rewrite Hends. cbn [fst snd].
  rewrite Nat.sub_0_r. reflexivity.
Qed.

Lemma X4_witness :
  exists w,
    request (Samples.once Samples.rate_limited) (Samples.client 1) "GET" "/v1/test"
            None initial
    = (Normal (VObj [("ok", VBool true)]), w)
    /\ calls w = 2%nat
    /\ sleeps (log w)
       = map (fun i => retry_delay (Z.of_nat i) (Samples.once Samples.rate_limited i))
             (seq 0 1).
Proof.
  apply (X4_success_after_retries (Samples.once Samples.rate_limited) (Samples.client 1)
           "GET" "/v1/test" None 1 Samples.accepted (VObj [("ok", VBool true)])).
  - simpl. lia.
  - intros i Hi. destruct i; [split; reflexivity | lia].
  - reflexivity.
  - reflexivity.
  - simpl. lia.
  - reflexivity.
Defined.

(** X5: when every call of [fetch] is rejected and the retry budget is
    not negative, [request] calls [fetch] [maxRetries + 1] times, sleeps
    the schedule (1000, 2000, then 4000 ms) between the calls, and throws
    the error "Network error: " followed by the text of the last
    rejection, with code [network_error] and status 0. *)
Theorem X5_network_error_after_all_attempts server c method path timeoutMs :
  0 <= maxRetries c ->
  (forall n, exists d, server n = Rejected d) ->
  exists d w,
    server (Z.to_nat (maxRetries c)) = Rejected d
    /\ request server c method path timeoutMs initial
       = (Abrupt (LeanvoxExn
                    (mkError LeanvoxErrorClass (VStr ("Network error: " ++ d))
                             (VStr "network_error") 0 VUndefined)), w)
    /\ calls w = S (Z.to_nat (maxRetries c))
    /\ sleeps (log w)
       = map (fun i => FixedDelay (Spec.schedule (Z.of_nat i)))
             (seq 0 (Z.to_nat (maxRetries c))).
Proof.
  intros Hpos Hall.
  destruct (Hall (Z.to_nat (maxRetries c))) as (d & Hd).
  destruct (request_ends server c method path timeoutMs)
    as (w & Hrun & Hcalls & Hsleeps & _).
  assert (Hends : fst (ends server (request_end c) (attempts (maxRetries c)) 0)
                  = (Abrupt (LeanvoxExn (network_error d)), S (Z.to_nat (maxRetries c)))).
  { rewrite (attempts_split _ (Z.to_nat (maxRetries c))) by lia.
    rewrite ends_skip_retries.
    - cbn [ends Nat.add]. rewrite Hd. unfold request_end, fault_end.
      destruct (Z.ltb_spec (Z.of_nat (Z.to_nat (maxRetries c))) (maxRetries c));
        [lia|reflexivity].
    - intros i Hi. destruct (Hall i) as (di & ->).
      eexists. apply request_end_rejected. lia. }
  exists d, w. rewrite Hrun, Hcalls, Hsleeps, Hends. cbn [fst snd].
  repeat split; [assumption|].
  unfold attempts. rewrite request_ends_delays by lia.
  fold (attempts (maxRetries c)). rewrite Hends. cbn [fst snd].
  rewrite Nat.sub_0_r. cbn [pred]. apply map_ext_in.
  intros i _. destruct (Hall i) as (di & ->). reflexivity.
Qed.

Lemma X5_witness :
  exists d w,
    (fun _ : nat => Rejected "ECONNREFUSED") (Z.to_nat (maxRetries (Samples.client 1)))
    = Rejected d
    /\ request (fun _ => Rejected "ECONNREFUSED") (Samples.client 1) "GET" "/v1/test"
               None initial
       = (Abrupt (LeanvoxExn
                    (mkError LeanvoxErrorClass (VStr ("Network error: " ++ d))
                             (VStr "network_error") 0 VUndefined)), w)
    /\ calls w = S (Z.to_nat (maxRetries (Samples.client 1)))
    /\ sleeps (log w)
       = map (fun i => FixedDelay (Spec.schedule (Z.of_nat i)))
             (seq 0 (Z.to_nat (maxRetries (Samples.client 1)))).
Proof.
  apply (X5_network_error_after_all_attempts (fun _ => Rejected "ECONNREFUSED")
           (Samples.client 1) "GET" "/v1/test" None).
  - simpl. lia.
  - intros n. exists "ECONNREFUSED". reflexivity.
Defined.

(** ** The delays of the other two methods *)

Lemma retryable_not_ok (r : Response) :
  retryable (Http.status r) = true -> ok r = false.
Proof.
  unfold retryable, RETRYABLE_STATUS_CODES. cbn [existsb]. intros H.
  apply ok_false_of_status.
  repeat (apply orb_true_iff in H; destruct H as [H|H];
          [apply Z.eqb_eq in H; lia|]).
  discriminate.
Qed.

Lemma ends_delays {A : Type} (server : nat -> Outcome)
    (end_of : Z -> Outcome -> AttemptEnd A) (c : HTTPClient)
    (delay : Z -> Outcome -> Delay) :
  (forall attempt o d,
      0 <= attempt -> end_of attempt o = Retried d ->
      d = delay attempt o /\ attempt < maxRetries c) ->
  forall (k n : nat),
    maxRetries c + 1 <= Z.of_nat (n + k) ->
    snd (ends server end_of (map Z.of_nat (seq n k)) n)
    = map (fun i => delay (Z.of_nat i) (server i))
          (seq n (pred (snd (fst (ends server end_of (map Z.of_nat (seq n k)) n)) - n))).
Proof.
  intros Hretried. induction k as [|k IH]; intros n Hlast.
  - simpl. rewrite Nat.sub_diag. reflexivity.
  - cbn [seq map ends].
    destruct (end_of (Z.of_nat n) (server n)) as [v|d|e] eqn:E.
    + cbn [fst snd]. replace (S n - n)%nat with 1%nat by lia. reflexivity.
    + destruct (Hretried _ _ _ (Nat2Z.is_nonneg n) E) as (-> & Hlt).
      specialize (IH (S n)).
      assert (Hrest : map Z.of_nat (seq (S n) k) <> []).
      { destruct k; [lia|]. discriminate. }
      pose proof (ends_progress server end_of _ (S n) Hrest) as Hprog.
      destruct (ends server end_of (map Z.of_nat (seq (S n) k)) (S n))
        as [[res n'] ds].
      cbn [fst snd] in *. rewrite IH by lia.
      replace (pred (n' - n)) with (S (pred (n' - S n))) by lia.
      reflexivity.
    + cbn [fst snd]. replace (S n - n)%nat with 1%nat by lia. reflexivity.
Qed.

Lemma requestStream_end_retried (c : HTTPClient) (attempt : Z) (o : Outcome) (d : Delay) :
  0 <= attempt ->
  requestStream_end c attempt o = Retried d ->
  d = retry_delay attempt o /\ attempt < maxRetries c.
Proof.
  intros Hpos Hend. split; [|exact (requestStream_end_budget _ _ _ _ Hend)].
  revert Hend. unfold requestStream_end, fault_end, status_end.
  destruct o as [r|msg].
  - assert (Herr : (if retryable (Http.status r) && (attempt <? maxRetries c)
                    then Retried (retry_after_or_backoff
                                    (headers_get (headers r) "Retry-After") attempt)
                    else Threw (raiseForStatus (Http.status r) (error_body_value r)))
                   = @Retried (string * Headers) d ->
                   d = retry_delay attempt (Responded r)).
    { destruct (retryable (Http.status r)) eqn:Hretry; simpl; [|discriminate].
      destruct (attempt <? maxRetries c); [|discriminate].
      intros Heq. inversion Heq.
      apply retry_after_or_backoff_delay; [assumption|].
      apply retryable_not_ok. assumption. }
    destruct (ok r), (stream r); try exact Herr. discriminate.
  - destruct (attempt <? maxRetries c); [|discriminate].
    intros Heq. inversion Heq. unfold retry_delay.
    rewrite backoff_schedule by assumption. reflexivity.
Qed.

Lemma run_sleeps {A : Type} (server : nat -> Outcome) (timeoutMs : Z)
    (body : Z -> IO (Step A)) (end_of : Z -> Outcome -> AttemptEnd A) (todo : list Z) :
  attempt_sound server timeoutMs body end_of ->
  sleeps (log (snd (for_attempts body todo initial))) = snd (ends server end_of todo 0)
  /\ calls (snd (for_attempts body todo initial)) = snd (fst (ends server end_of todo 0)).
Proof.
  intros Hsound.
  destruct (for_attempts_ends server timeoutMs body end_of Hsound todo initial)
    as (w & Hrun & Hcalls & Hsleeps & _).
  rewrite Hrun. cbn [snd]. auto.
Qed.

(** X6: [requestStream] sleeps before a retry as [request] does: the
    time of the [Retry-After] header of the error response it retries
    when that header is present and not empty, the schedule otherwise and
    after every transport failure. *)
Theorem X6_stream_retry_delays server c method path timeoutMs :
  sleeps (log (snd (requestStream server c method path timeoutMs initial)))
  = map (fun i => retry_delay (Z.of_nat i) (server i))
        (seq 0 (pred (calls (snd (requestStream server c method path timeoutMs
                                                initial))))).
Proof.
  unfold requestStream.
  destruct (run_sleeps server _ _ _ (attempts (maxRetries c))
              (requestStream_attempt_sound server c method path
                 (match timeoutMs with Some t => t | None => 120000 end)))
    as (-> & ->).
  unfold attempts.
  rewrite (ends_delays server (requestStream_end c) c retry_delay
             (requestStream_end_retried c)) by lia.
  rewrite Nat.sub_0_r. reflexivity.
Qed.

Lemma upload_end_schedule (c : HTTPClient) (attempt : Z) (o : Outcome) (d : Delay) :
  0 <= attempt ->
  upload_end c attempt o = Retried d ->
  d = FixedDelay (Spec.schedule attempt) /\ attempt < maxRetries c.
Proof.
  intros Hpos Hend. split; [|exact (upload_end_budget _ _ _ _ Hend)].
  rewrite (upload_end_retried _ _ _ _ Hend), backoff_schedule by assumption.
  reflexivity.
Qed.

(** X7: every sleep of [upload] comes from the schedule: before its
    retry number [i + 1] it sleeps 1000, 2000, then 4000 ms, whatever the
    response it retries carries. *)
Theorem X7_upload_delays_follow_schedule server c path timeoutMs :
  sleeps (log (snd (upload server c path timeoutMs initial)))
  = map (fun i => FixedDelay (Spec.schedule (Z.of_nat i)))
        (seq 0 (pred (calls (snd (upload server c path timeoutMs initial))))).
Proof.
  unfold upload.
  destruct (run_sleeps server _ _ _ (attempts (maxRetries c))
              (upload_attempt_sound server c path
                 (match timeoutMs with Some t => t | None => timeout c * 1000 end)))
    as (-> & ->).
  unfold attempts.
  rewrite (ends_delays server (upload_end c) c
             (fun attempt _ => FixedDelay (Spec.schedule attempt))
             (upload_end_schedule c)) by lia.
  rewrite Nat.sub_0_r. reflexivity.
Qed.

(** ** Successes without a usable body *)

Lemma upload_ends_unreadable (server : nat -> Outcome) (c : HTTPClient)
    (r : Response) (d : string) :
  0 <= maxRetries c ->
  (forall n, server n = Responded r) -> ok r = true -> json r = Unparsable d ->
  fst (ends server (upload_end c) (attempts (maxRetries c)) 0)
  = (Abrupt (LeanvoxExn (network_error d)), S (Z.to_nat (maxRetries c))).
Proof.
  intros Hpos Hall Hok Hjson.
  rewrite (attempts_split _ (Z.to_nat (maxRetries c))) by lia.
  rewrite ends_skip_retries.
  - cbn [ends Nat.add]. rewrite Hall. unfold upload_end, fault_end.
    rewrite Hok, Hjson.
    destruct (Z.ltb_spec (Z.of_nat (Z.to_nat (maxRetries c))) (maxRetries c));
      [lia|reflexivity].
  - intros i Hi. rewrite Hall. unfold upload_end, fault_end. rewrite Hok, Hjson.
    destruct (Z.ltb_spec (Z.of_nat i) (maxRetries c)); [eauto|lia].
Qed.

(** X8: answered 204, [request] returns [undefined] after one call of
    [fetch] without reading the body.  [upload] has no such case: it
    reads the body of every success, and when a 204 (or any success) has
    no JSON body it takes the failure to parse for a transport failure,
    retries while the budget lasts, and throws a network error with
    status 0. *)
Theorem X8_no_content_request_and_upload server c method path timeoutMs
    (r : Response) (d : string) :
  0 <= maxRetries c ->
  (forall n, server n = Responded r) ->
  Http.status r = 204 ->
  json r = Unparsable d ->
  (exists w,
      request server c method path timeoutMs initial = (Normal VUndefined, w)
      /\ calls w = 1%nat /\ sleeps (log w) = [])
  /\ (exists w,
         upload server c path timeoutMs initial
         = (Abrupt (LeanvoxExn
                      (mkError LeanvoxErrorClass (VStr ("Network error: " ++ d))
                               (VStr "network_error") 0 VUndefined)), w)
         /\ calls w = S (Z.to_nat (maxRetries c))).
Proof.
  intros Hpos Hall H204 Hjson.
  assert (Hok : ok r = true) by (unfold ok; rewrite H204; reflexivity).
  split.
  - destruct (request_ends server c method path timeoutMs)
      as (w & Hrun & Hcalls & Hsleeps & _).
    exists w. rewrite Hrun, Hcalls, Hsleeps, (attempts_from_zero _ Hpos).
    cbn [ends]. rewrite Hall. unfold request_end. rewrite Hok, H204. simpl. auto.
  - destruct (upload_ends server c path timeoutMs) as (w & Hrun & Hcalls & _).
    exists w. rewrite Hrun, Hcalls, (upload_ends_unreadable server c r d); auto.
Qed.

Lemma X8_witness :
  (exists w,
      request (Samples.always MoreSamples.no_content) (Samples.client 2)
              "DELETE" "/v1/test" None initial
      = (Normal VUndefined, w)
      /\ calls w = 1%nat /\ sleeps (log w) = [])
  /\ (exists w,
         upload (Samples.always MoreSamples.no_content) (Samples.client 2)
                "/v1/test" None initial
         = (Abrupt (LeanvoxExn
                      (mkError LeanvoxErrorClass
                               (VStr ("Network error: " ++ "Unexpected end of JSON input"))
                               (VStr "network_error") 0 VUndefined)), w)
         /\ calls w = S (Z.to_nat (maxRetries (Samples.client 2)))).
Proof.
  apply (X8_no_content_request_and_upload (Samples.always MoreSamples.no_content)
           (Samples.client 2) "DELETE" "/v1/test" None MoreSamples.no_content
           "Unexpected end of JSON input").
  - simpl. lia.
  - intros n. reflexivity.
  - reflexivity.
  - reflexivity.
Defined.

Lemma raiseForStatus_success_class (status : Z) (body : value) :
  200 <= status <= 299 -> class (raiseForStatus status body) = LeanvoxErrorClass.
Proof.
  intros H. unfold raiseForStatus, STATUS_MAP.
  destruct (Z.eqb_spec status 402); [lia|].
  destruct (Z.eqb_spec status 429); [lia|].
  destruct (Z.eqb_spec status 400); [lia|].
  destruct (Z.eqb_spec status 401); [lia|].
  destruct (Z.eqb_spec status 404); [lia|].
  destruct (Z.eqb_spec status 500); [lia|].
  reflexivity.
Qed.

(** X9: when the first answer to [requestStream] is a success that has
    no body stream, [requestStream] does not return and does not retry:
    after that one call it throws the error classified from the answer,
    a plain [LeanvoxError] that carries the success status. *)
Theorem X9_stream_success_without_body server c method path timeoutMs (r : Response) :
  0 <= maxRetries c ->
  server 0%nat = Responded r ->
  ok r = true ->
  stream r = None ->
  let e := raiseForStatus (Http.status r) (error_body_value r) in
  exists w,
    requestStream server c method path timeoutMs initial = (Abrupt (LeanvoxExn e), w)
    /\ calls w = 1%nat
    /\ class e = LeanvoxErrorClass
    /\ statusCode e = Http.status r
    /\ 200 <= statusCode e <= 299.
Proof.
  intros Hpos H0 Hok Hstream e.
  assert (Hrange : 200 <= Http.status r <= 299).
  { unfold ok in Hok. apply andb_true_iff in Hok. destruct Hok as (H1 & H2).
    apply Z.leb_le in H1, H2. lia. }
  assert (Hfinal : retryable (Http.status r) = false).
  { destruct (retryable (Http.status r)) eqn:E; [|reflexivity].
    apply retryable_not_ok in E. congruence. }
  destruct (requestStream_ends server c method path timeoutMs) as (w & Hrun & Hcalls & _).
  exists w. rewrite Hrun, Hcalls, (attempts_from_zero _ Hpos). cbn [ends].
  rewrite H0. unfold requestStream_end, status_end. rewrite Hok, Hstream, Hfinal.
  cbn [andb fst snd]. subst e.
  rewrite raiseForStatus_statusCode, raiseForStatus_success_class by assumption.
  auto.
Qed.

Lemma X9_witness :
  exists w,
    requestStream (Samples.always MoreSamples.no_content) (Samples.client 2)
                  "POST" "/v1/tts/stream" None initial
    = (Abrupt (LeanvoxExn
                 (raiseForStatus (Http.status MoreSamples.no_content)
                                 (error_body_value MoreSamples.no_content))), w)
    /\ calls w = 1%nat
    /\ class (raiseForStatus (Http.status MoreSamples.no_content)
                             (error_body_value MoreSamples.no_content))
       = LeanvoxErrorClass
    /\ statusCode (raiseForStatus (Http.status MoreSamples.no_content)
                                  (error_body_value MoreSamples.no_content))
       = Http.status MoreSamples.no_content
    /\ 200 <= statusCode (raiseForStatus (Http.status MoreSamples.no_content)
                                         (error_body_value MoreSamples.no_content))
       <= 299.
Proof.
  apply (X9_stream_success_without_body (Samples.always MoreSamples.no_content)
           (Samples.client 2) "POST" "/v1/tts/stream" None MoreSamples.no_content).
  - simpl. lia.
  - reflexivity.
  - reflexivity.
  - reflexivity.
Defined.

(** ** The abort timer *)

Lemma timer_app (armed : bool) (l1 l2 : list Event) :
  timer armed (l1 ++ l2)
  = match timer armed l1 with
    | Some state => timer state l2
    | None => None
    end.
Proof.
  revert armed. induction l1 as [|e l1 IH]; intros armed; simpl; [reflexivity|].
  destruct e, armed; simpl; auto.
Qed.

Ltac close_timed :=
  simpl; rewrite <- ?app_assoc; simpl;
  eexists; split; [reflexivity | reflexivity].

Lemma request_attempt_timed server c method path timeoutMs :
  attempt_timed (request_attempt server c method path timeoutMs).
Proof.
  intros attempt w. unfold request_attempt. run_attempt.
  destruct (server (calls w)) as [r|d]; simpl.
  - destruct (ok r); simpl.
    + destruct (Http.status r =? 204); simpl; [close_timed|].
      destruct (json r) as [v|d]; simpl; [close_timed|].
      destruct (attempt <? maxRetries c); close_timed.
    + destruct (retryable (Http.status r) && (attempt <? maxRetries c)); simpl;
        [close_timed|].
      destruct (json r) as [v|d]; close_timed.
  - destruct (attempt <? maxRetries c); close_timed.
Qed.

Lemma requestStream_attempt_timed server c method path timeoutMs :
  attempt_timed (requestStream_attempt server c method path timeoutMs).
Proof.
  intros attempt w. unfold requestStream_attempt. run_attempt.
  destruct (server (calls w)) as [r|d]; simpl.
  - destruct (ok r), (stream r) as [s|]; simpl; try close_timed;
      (destruct (retryable (Http.status r) && (attempt <? maxRetries c)); simpl;
       [close_timed|]; destruct (json r) as [v|d]; close_timed).
  - destruct (attempt <? maxRetries c); close_timed.
Qed.

Lemma upload_attempt_timed server c path timeoutMs :
  attempt_timed (upload_attempt server c path timeoutMs).
Proof.
  intros attempt w. unfold upload_attempt. run_attempt.
  destruct (server (calls w)) as [r|d]; simpl.
  - destruct (ok r); simpl.
    + destruct (json r) as [v|d]; simpl; [close_timed|].
      destruct (attempt <? maxRetries c); close_timed.
    + destruct (retryable (Http.status r) && (attempt <? maxRetries c)); simpl;
        [close_timed|].
      destruct (json r) as [v|d]; close_timed.
  - destruct (attempt <? maxRetries c); close_timed.
Qed.

Lemma for_attempts_timed {A : Type} (body : Z -> IO (Step A)) (todo : list Z) :
  attempt_timed body ->
  forall w, exists evs,
    log (snd (for_attempts body todo w)) = (log w ++ evs)%list
    /\ timer false evs = Some false.
Proof.
  intros Hbody. induction todo as [|attempt rest IH]; intros w.
  - exists []. simpl. rewrite app_nil_r. auto.
  - destruct (Hbody attempt w) as (evs & Hlog & Htimer).
    cbn [for_attempts]. unfold bind.
    destruct (body attempt w) as [[[v|]|x] w1]; cbn [snd] in *.
    + exists evs. auto.
    + destruct (IH w1) as (evs' & Hlog' & Htimer').
      exists (evs ++ evs')%list. rewrite Hlog', Hlog, app_assoc, timer_app, Htimer. auto.
    + exists evs. auto.
Qed.

(** X10: in every run of the three methods the abort timer is handled
    in order: a timer is armed only when none is pending, every call of
    [fetch] runs with the timer armed, every sleep runs with no timer
    pending, and no timer is left pending when the run ends, whether it
    returns or throws. *)
Theorem X10_timer_is_always_released server c method path timeoutMs :
  timer false (log (snd (request server c method path timeoutMs initial))) = Some false
  /\ timer false (log (snd (requestStream server c method path timeoutMs initial)))
     = Some false
  /\ timer false (log (snd (upload server c path timeoutMs initial))) = Some false.
Proof.
  unfold request, requestStream, upload.
  split; [|split].
  - destruct (for_attempts_timed _ (attempts (maxRetries c))
                (request_attempt_timed server c method path
                   (match timeoutMs with Some t => t | None => timeout c * 1000 end))
                initial) as (evs & -> & Htimer).
    exact Htimer.
  - destruct (for_attempts_timed _ (attempts (maxRetries c))
                (requestStream_attempt_timed server c method path
                   (match timeoutMs with Some t => t | None => 120000 end))
                initial) as (evs & -> & Htimer).
    exact Htimer.
  - destruct (for_attempts_timed _ (attempts (maxRetries c))
                (upload_attempt_timed server c path
                   (match timeoutMs with Some t => t | None => timeout c * 1000 end))
                initial) as (evs & -> & Htimer).
    exact Htimer.
Qed.

(** ** What the classifier takes from the body *)

(** ** More on the job poller *)

Section PollerFurther.

Import Client.

Variable api : nat -> JobOutcome.

Lemma poll_never_done (fuel : nat) :
  (forall n, exists j, api n = JobReturned j /\ polling j = true) ->
  forall (current : Job) (w : PollWorld),
    polling current = true ->
    exists w', poll api fuel current w = (Normal None, w')
               /\ api_calls w' = (api_calls w + fuel)%nat.
Proof.
  intros Hall. induction fuel as [|fuel IH]; intros current w Hpolling.
  - exists w. simpl. rewrite Hpolling. split; [reflexivity|lia].
  - cbn [poll]. rewrite Hpolling.
    unfold bind, wait, getJob, api_call. cbn [api_calls poll_log].
    destruct (Hall (api_calls w)) as (next & -> & Hnext).
    destruct (IH next (mkPollWorld (S (api_calls w))
                         ((poll_log w ++ [Wait ASYNC_POLL_INTERVAL])
                          ++ [GetJob (id current)])%list) Hnext)
      as (w' & Hrun & Hcalls).
    exists w'. split; [exact Hrun|]. rewrite Hcalls. simpl. lia.
Qed.

(** X12: the poll loop has no bound of its own.  When the service keeps
    answering jobs that are neither [completed] nor [failed], then for
    every number of passes the loop is still polling after them: it has
    called the service once per pass, after the submission, and has
    neither returned nor thrown. *)
Theorem X12_poll_loop_is_unbounded (options : GenerateOptions) (fuel : nat) :
  (forall n, exists j, api n = JobReturned j /\ polling j = true) ->
  exists w,
    generateAsyncAndPoll api fuel options poll_initial = (Normal None, w)
    /\ api_calls w = S fuel.
Proof.
  intros Hall. destruct (Hall 0%nat) as (job & Hjob & Hpolling).
  unfold generateAsyncAndPoll.
  unfold bind at 1. unfold generateAsync, api_call. cbn [api_calls poll_log poll_initial].
  rewrite Hjob.
  destruct (poll_never_done fuel Hall job
              (mkPollWorld 1 ([] ++ [GenerateAsync options])%list) Hpolling)
    as (w & Hrun & Hcalls).
  exists w. unfold bind. rewrite Hrun. split; [reflexivity|].
  rewrite Hcalls. reflexivity.
Qed.

(** The loop up to a call that throws. *)
Lemma poll_throws (k : nat) (x : Exn) :
  (forall i, (i < k)%nat -> exists j, api i = JobReturned j /\ polling j = true) ->
  api k = JobThrown x ->
  forall (fuel i : nat) (current : Job) (w : PollWorld),
    api_calls w = S i ->
    api i = JobReturned current ->
    (i < k)%nat ->
    (k - i <= fuel)%nat ->
    exists w', poll api fuel current w = (Abrupt x, w') /\ api_calls w' = S k.
Proof.
  intros Hbefore Hthrow.
  induction fuel as [|fuel IH]; intros i current w Hcalls Hcurrent Hlt Hfuel; [lia|].
  destruct (Hbefore i Hlt) as (j & Hj & Hpolling).
  rewrite Hj in Hcurrent. inversion Hcurrent. subst j.
  cbn [poll]. rewrite Hpolling.
  unfold bind, wait, getJob, api_call. cbn [api_calls poll_log]. rewrite Hcalls.
  destruct (Nat.eq_dec (S i) k) as [E|Hne].
  - rewrite E, Hthrow. eexists. split; reflexivity.
  - destruct (Hbefore (S i)) as (next & Hnext & _); [lia|].
    rewrite Hnext. apply IH with (i := S i); auto; simpl; lia.
Qed.

(** X13: what [generateAsync] or [getJob] throws is thrown on by the
    poller unchanged, and ends it: when the call number [k] of the
    service throws, after answers that were all still in progress, the
    poller throws the same thing after [k + 1] calls. *)
Theorem X13_poller_rethrows (options : GenerateOptions) (k fuel : nat) (x : Exn) :
  (forall i, (i < k)%nat -> exists j, api i = JobReturned j /\ polling j = true) ->
  api k = JobThrown x ->
  (k <= fuel)%nat ->
  exists w,
    generateAsyncAndPoll api fuel options poll_initial = (Abrupt x, w)
    /\ api_calls w = S k.
Proof.
  intros Hbefore Hthrow Hfuel.
  unfold generateAsyncAndPoll.
  unfold bind at 1. unfold generateAsync, api_call. cbn [api_calls poll_log poll_initial].
  destruct k as [|k].
  - rewrite Hthrow. eexists. split; reflexivity.
  - destruct (Hbefore 0%nat) as (job & Hjob & Hpolling); [lia|].
    rewrite Hjob.
    destruct (poll_throws (S k) x Hbefore Hthrow fuel 0%nat job
                (mkPollWorld 1 ([] ++ [GenerateAsync options])%list))
      as (w & Hrun & Hcalls); auto; try lia.
    exists w. unfold bind. rewrite Hrun. auto.
Qed.

(** The log of the loop up to the terminal job. *)
Lemma poll_log_reaches (jobs : nat -> Job) (n : nat) :
  (forall i, (i <= n)%nat -> api i = JobReturned (jobs i)) ->
  (forall i, (i < n)%nat -> polling (jobs i) = true) ->
  polling (jobs n) = false ->
  forall (fuel i : nat) (w : PollWorld),
    api_calls w = S i ->
    (i <= n)%nat ->
    (n - i <= fuel)%nat ->
    poll_log (snd (poll api fuel (jobs i) w))
    = (poll_log w
       ++ flat_map (fun k => [Wait ASYNC_POLL_INTERVAL; GetJob (id (jobs k))])
                   (seq i (n - i)))%list.
Proof.
  intros Hjobs Hbefore Hterminal.
  induction fuel as [|fuel IH]; intros i w Hcalls Hle Hfuel.
  - assert (i = n) by lia. subst i.
    simpl. rewrite Hterminal, Nat.sub_diag. simpl. rewrite app_nil_r. reflexivity.
  - destruct (Nat.eq_dec i n) as [->|Hne].
    + simpl. rewrite Hterminal, Nat.sub_diag. simpl. rewrite app_nil_r. reflexivity.
    + cbn [poll]. rewrite Hbefore by lia.
      unfold bind, wait, getJob, api_call. cbn [api_calls poll_log].
      rewrite Hcalls, Hjobs by lia.
      rewrite IH by (simpl; lia). cbn [poll_log].
      replace (n - i)%nat with (S (n - S i)) by lia.
      cbn [seq flat_map]. rewrite <- !app_assoc. reflexivity.
Qed.

(** X14: until the job is [completed] or [failed] the poller waits
    2000 ms before each poll, and polls the id of the job it got last
    (the submitted job first, then the job of each poll); it makes no
    further call once the job is terminal. *)
Theorem X14_poller_trace (options : GenerateOptions) (jobs : nat -> Job) (n fuel : nat) :
  (forall i, (i <= n)%nat -> api i = JobReturned (jobs i)) ->
  (forall i, (i < n)%nat -> polling (jobs i) = true) ->
  polling (jobs n) = false ->
  (n <= fuel)%nat ->
  poll_log (snd (generateAsyncAndPoll api fuel options poll_initial))
  = GenerateAsync options
    :: flat_map (fun k => [Wait 2000; GetJob (id (jobs k))]) (seq 0 n).
Proof.
  intros Hjobs Hbefore Hterminal Hfuel.
  pose proof (poll_log_reaches jobs n Hjobs Hbefore Hterminal fuel 0%nat
                (mkPollWorld 1 ([] ++ [GenerateAsync options])%list)) as Hlog.
  rewrite Nat.sub_0_r in Hlog. specialize (Hlog eq_refl (Nat.le_0_l n) Hfuel).
  unfold generateAsyncAndPoll.
  unfold bind at 1. unfold generateAsync, api_call. cbn [api_calls poll_log poll_initial].
  rewrite Hjobs by lia.
  unfold bind.
  destruct (poll api fuel (jobs 0%nat) (mkPollWorld 1 ([] ++ [GenerateAsync options])%list))
    as [[[current|]|x] w] eqn:E; cbn [snd] in Hlog.
  - destruct (String.eqb (Client.status current) "failed"); exact Hlog.
  - exact Hlog.
  - exact Hlog.
Qed.

End PollerFurther.

Lemma X12_witness :
  exists w,
    Client.generateAsyncAndPoll (JobSamples.service JobSamples.pending) 5
                                JobSamples.long_text Client.poll_initial
    = (Normal None, w)
    /\ Client.api_calls w = 6%nat.
Proof.
  apply (X12_poll_loop_is_unbounded (JobSamples.service JobSamples.pending)
           JobSamples.long_text 5).
  intros n. exists JobSamples.pending. destruct n; split; reflexivity.
Defined.

Lemma X13_witness :
  exists w,
    Client.generateAsyncAndPoll TtsSamples.broken_service 3 JobSamples.long_text
                                Client.poll_initial
    = (Abrupt (LeanvoxExn (network_error "ECONNRESET")), w)
    /\ Client.api_calls w = 2%nat.
Proof.
  apply (X13_poller_rethrows TtsSamples.broken_service JobSamples.long_text 1 3
           (LeanvoxExn (network_error "ECONNRESET"))).
  - intros i Hi. exists JobSamples.pending.
    destruct i; [split; reflexivity | lia].
  - reflexivity.
  - lia.
Defined.

Lemma X14_witness :
  Client.poll_log
    (snd (Client.generateAsyncAndPoll (JobSamples.service JobSamples.completed) 4
                                      JobSamples.long_text Client.poll_initial))
  = Client.GenerateAsync JobSamples.long_text
    :: flat_map (fun k => [Client.Wait 2000; Client.GetJob (Client.id (TtsSamples.jobs k))])
                (seq 0 1).
Proof.
  apply (X14_poller_trace (JobSamples.service JobSamples.completed)
           JobSamples.long_text TtsSamples.jobs 1 4).
  - intros i Hi. destruct i; reflexivity.
  - intros i Hi. destruct i; [reflexivity | lia].
  - reflexivity.
  - lia.
Defined.

(** ** The API key *)

Lemma ensureApiKey_error (key : option string) (x : Exn) :
  Auth.ensureApiKey key = Abrupt x ->
  exists e,
    x = LeanvoxExn e
    /\ class e = AuthenticationErrorClass
    /\ statusCode e = 401
    /\ code e = VStr "invalid_api_key".
Proof.
  unfold Auth.ensureApiKey, Auth.validateApiKey, Auth.new_error.
  destruct key as [[|ch rest]|]; cbn [Auth.truthy negb].
  - intros H. inversion H. eexists. repeat split.
  - destruct (existsb (fun prefix => String.prefix prefix (String ch rest))
                      Auth.VALID_PREFIXES); cbn [negb].
    + discriminate.
    + intros H. inversion H. eexists. repeat split.
  - intros H. inversion H. eexists. repeat split.
Qed.

Lemma ensureApiKey_accepts (key : option string) (k : string) :
  Auth.ensureApiKey key = Normal k
  <-> key = Some k
      /\ (String.prefix "lv_live_" k = true \/ String.prefix "lv_test_" k = true).
Proof.
  unfold Auth.ensureApiKey, Auth.validateApiKey, Auth.VALID_PREFIXES.
  destruct key as [[|ch rest]|]; cbn [Auth.truthy negb existsb].
  - split; [discriminate|]. intros (H & Hprefix). inversion H. subst k.
    simpl in Hprefix. destruct Hprefix; discriminate.
  - rewrite orb_false_r.
    destruct (String.prefix "lv_live_" (String ch rest)) eqn:Hlive;
      destruct (String.prefix "lv_test_" (String ch rest)) eqn:Htest; cbn [orb negb].
    + split; [intros H; inversion H; subst k; auto|].
      intros (H & _). inversion H. reflexivity.
    + split; [intros H; inversion H; subst k; auto|].
      intros (H & _). inversion H. reflexivity.
    + split; [intros H; inversion H; subst k; auto|].
      intros (H & _). inversion H. reflexivity.
    + split; [discriminate|].
      intros (H & Hprefix). inversion H. subst k.
      rewrite Hlive, Htest in Hprefix. destruct Hprefix; discriminate.
  - split; [discriminate|]. intros (H & _). discriminate.
Qed.

(** X15: [ensureApiKey] returns the key it is given, unchanged, exactly
    when the key starts with "lv_live_" or "lv_test_"; for a missing key,
    an empty key or any other prefix it throws an [AuthenticationError]
    with status 401 and code "invalid_api_key". *)
Theorem X15_api_key_is_accepted_by_prefix (key : option string) :
  (forall k,
      Auth.ensureApiKey key = Normal k
      <-> key = Some k
          /\ (String.prefix "lv_live_" k = true \/ String.prefix "lv_test_" k = true))
  /\ (forall x,
         Auth.ensureApiKey key = Abrupt x ->
         exists e,
           x = LeanvoxExn e
           /\ class e = AuthenticationErrorClass
           /\ statusCode e = 401
           /\ code e = VStr "invalid_api_key").
Proof.
  split; [apply ensureApiKey_accepts | apply ensureApiKey_error].
Qed.

(** X16: a key passed to the constructor that is not empty is the only
    one considered: the environment variable and the configuration file
    change nothing, so a malformed key passed explicitly makes the
    constructor throw even when the environment holds a valid one. *)
Theorem X16_explicit_key_is_final (options : Tts.LeanvoxOptions)
    (env config : option string) (k : string) :
  Tts.opt_apiKey options = Some k ->
  k <> "" ->
  Tts.new_Leanvox options env config = Tts.new_Leanvox options None None
  /\ (String.prefix "lv_live_" k = false ->
      String.prefix "lv_test_" k = false ->
      exists e,
        Tts.new_Leanvox options env config = Abrupt (LeanvoxExn e)
        /\ class e = AuthenticationErrorClass).
Proof.
  intros Hkey Hne. unfold Tts.new_Leanvox, Auth.resolveApiKey. rewrite Hkey.
  destruct k as [|ch rest]; [congruence|]. cbn [Auth.truthy].
  split; [reflexivity|].
  intros Hlive Htest.
  destruct (Auth.ensureApiKey (Some (String ch rest))) as [k'|x] eqn:E.
  - apply ensureApiKey_accepts in E. destruct E as (Hsome & [H|H]);
      inversion Hsome; subst k'; congruence.
  - destruct (ensureApiKey_error _ _ E) as (e & -> & Hclass & _). eauto.
Qed.

Lemma X16_witness :
  Tts.new_Leanvox (Tts.mkLeanvoxOptions (Some "sk_live_abc123") None None None None)
                  (Some "lv_live_from_env") None
  = Tts.new_Leanvox (Tts.mkLeanvoxOptions (Some "sk_live_abc123") None None None None)
                    None None
  /\ (String.prefix "lv_live_" "sk_live_abc123" = false ->
      String.prefix "lv_test_" "sk_live_abc123" = false ->
      exists e,
        Tts.new_Leanvox (Tts.mkLeanvoxOptions (Some "sk_live_abc123") None None None None)
                        (Some "lv_live_from_env") None
        = Abrupt (LeanvoxExn e)
        /\ class e = AuthenticationErrorClass).
Proof.
  apply (X16_explicit_key_is_final
           (Tts.mkLeanvoxOptions (Some "sk_live_abc123") None None None None)
           (Some "lv_live_from_env") None "sk_live_abc123").
  - reflexivity.
  - discriminate.
Defined.

(** X17: a client constructed without [timeout] and [maxRetries] holds
    a key with a valid prefix, and each [request] it makes calls [fetch]
    at most 3 times, every call under a deadline of 30000 ms. *)
Theorem X17_default_client_budget (options : Tts.LeanvoxOptions)
    (env config : option string) (client : Tts.Leanvox)
    (server : nat -> Outcome) (method path : string) :
  Tts.new_Leanvox options env config = Normal client ->
  Tts.opt_timeout options = None ->
  Tts.opt_maxRetries options = None ->
  (String.prefix "lv_live_" (apiKey (Tts.http client)) = true
   \/ String.prefix "lv_test_" (apiKey (Tts.http client)) = true)
  /\ (calls (snd (request server (Tts.http client) method path None initial)) <= 3)%nat
  /\ deadlines (log (snd (request server (Tts.http client) method path None initial)))
     = repeat 30000
              (calls (snd (request server (Tts.http client) method path None initial))).
Proof.
  intros Hnew Htimeout Hretries. unfold Tts.new_Leanvox in Hnew.
  destruct (Auth.ensureApiKey
              (Auth.resolveApiKey (Tts.opt_apiKey options) env config))
    as [key|x] eqn:E; [|discriminate].
  inversion Hnew. subst client. clear Hnew.
  rewrite Htimeout, Hretries. cbn [Tts.http Client.or_default Tts.new_HTTPClient apiKey].
  apply ensureApiKey_accepts in E. destruct E as (_ & Hprefix).
  split; [exact Hprefix|].
  unfold Tts.new_HTTPClient.
  set (c := mkClient (Tts.strip_slash (Client.or_default (Tts.opt_baseUrl options)
                                                          Tts.DEFAULT_BASE_URL))
                     key Tts.DEFAULT_TIMEOUT Tts.DEFAULT_MAX_RETRIES).
  destruct (request_ends server c method path None) as (w & Hrun & Hcalls & _ & Hdl).
  rewrite Hrun. cbn [snd]. split; [|exact Hdl].
  rewrite Hcalls.
  pose proof (ends_calls_upper server (request_end c) (attempts (maxRetries c)) 0) as Hle.
  rewrite attempts_length in Hle. exact Hle.
Qed.

Lemma X17_witness :
  (String.prefix "lv_live_" (apiKey (Tts.http TtsSamples.default_client)) = true
   \/ String.prefix "lv_test_" (apiKey (Tts.http TtsSamples.default_client)) = true)
  /\ (calls (snd (request (Samples.always Samples.json_500)
                          (Tts.http TtsSamples.default_client) "GET" "/v1/voices"
                          None initial)) <= 3)%nat
  /\ deadlines (log (snd (request (Samples.always Samples.json_500)
                                  (Tts.http TtsSamples.default_client) "GET" "/v1/voices"
                                  None initial)))
     = repeat 30000
              (calls (snd (request (Samples.always Samples.json_500)
                                   (Tts.http TtsSamples.default_client) "GET"
                                   "/v1/voices" None initial))).
Proof.
  apply (X17_default_client_budget TtsSamples.default_options None None
           TtsSamples.default_client (Samples.always Samples.json_500)
           "GET" "/v1/voices"); reflexivity.
Defined.

(** ** Validation of generation options *)

Lemma text_check (t : string) :
  negb (Auth.truthy (Some t)) || (Z.of_nat (String.length t) =? 0) = false <-> t <> "".
Proof.
  destruct t as [|ch rest]; simpl.
  - split; [discriminate|congruence].
  - split; [discriminate|]. intros _. reflexivity.
Qed.

Lemma format_check (format : option string) (message : string) :
  match format with
  | Some f =>
      if negb (String.eqb (lower f) "mp3") && negb (String.eqb (lower f) "wav")
      then @Tts.invalid unit message
      else Normal tt
  | None => Normal tt
  end = Normal tt
  <-> (forall f, format = Some f -> lower f = "mp3" \/ lower f = "wav").
Proof.
  destruct format as [f|].
  - destruct (String.eqb_spec (lower f) "mp3") as [Hmp3|Hmp3]; cbn [negb andb].
    + split; [|reflexivity]. intros _ f0 Heq. inversion Heq. subst. auto.
    + destruct (String.eqb_spec (lower f) "wav") as [Hwav|Hwav]; cbn [negb].
      * split; [|reflexivity]. intros _ f0 Heq. inversion Heq. subst. auto.
      * split; [discriminate|]. intros H. destruct (H f eq_refl); contradiction.
  - split; [discriminate|reflexivity].
Qed.

Lemma validateGenerateParams_format (options : Tts.Options) (f : string) :
  Tts.validateGenerateParams options = Normal tt ->
  Client.format (Tts.common options) = Some f ->
  lower f = "mp3" \/ lower f = "wav".
Proof.
  unfold Tts.validateGenerateParams. intros Hvalid Hformat. rewrite Hformat in Hvalid.
  destruct (String.eqb_spec (lower f) "mp3") as [Hmp3|Hmp3]; [auto|].
  destruct (String.eqb_spec (lower f) "wav") as [Hwav|Hwav]; [auto|].
  cbn [negb andb] in Hvalid.
  repeat match type of Hvalid with
         | context [if ?b then _ else _] => destruct b
         end; discriminate.
Qed.

Lemma invalid_shape {A : Type} (message : string) :
  @Tts.invalid A message
  = Abrupt (LeanvoxExn (mkError InvalidRequestErrorClass (VStr message)
                                (VStr "invalid_request") 400 VUndefined)).
Proof. reflexivity. Qed.

Lemma validateGenerateParams_error (options : Tts.Options) (x : Exn) :
  Tts.validateGenerateParams options = Abrupt x ->
  exists m, x = LeanvoxExn (mkError InvalidRequestErrorClass (VStr m)
                                    (VStr "invalid_request") 400 VUndefined).
Proof.
  unfold Tts.validateGenerateParams.
  repeat match goal with
         | |- context [if ?b then _ else _] => destruct b
         | |- context [match ?o with Some _ => _ | None => _ end] => destruct o
         end;
    intros H; inversion H; eexists; reflexivity.
Qed.

Lemma buildGenerateBody_error (options : Tts.Options) (x : Exn) :
  Tts.buildGenerateBody options = Abrupt x ->
  exists m, x = LeanvoxExn (mkError InvalidRequestErrorClass (VStr m)
                                    (VStr "invalid_request") 400 VUndefined).
Proof.
  unfold Tts.buildGenerateBody.
  destruct (String.eqb (Tts.model_of options) "max").
  - destruct (Tts.voiceInstructions options) as [[|ch rest]|];
      try (intros H; inversion H; eexists; reflexivity).
    destruct (300 <? Z.of_nat (String.length (String ch rest)));
      [intros H; inversion H; eexists; reflexivity|].
    destruct (Auth.truthy (Client.voice (Tts.common options)));
      [intros H; inversion H; eexists; reflexivity|discriminate].
  - destruct (Auth.truthy (Tts.voiceInstructions options));
      [intros H; inversion H; eexists; reflexivity|discriminate].
Qed.

(** X19: whatever [validateGenerateParams] or [buildGenerateBody]
    throws is an [InvalidRequestError] with status 400, the code
    "invalid_request" and no body. *)
Theorem X19_option_errors_are_invalid_requests (options : Tts.Options) (x : Exn) :
  Tts.validateGenerateParams options = Abrupt x
  \/ Tts.buildGenerateBody options = Abrupt x ->
  exists m, x = LeanvoxExn (mkError InvalidRequestErrorClass (VStr m)
                                    (VStr "invalid_request") 400 VUndefined).
Proof.
  intros [H|H];
    [exact (validateGenerateParams_error _ _ H) | exact (buildGenerateBody_error _ _ H)].
Qed.

Lemma X19_witness :
  exists m,
    LeanvoxExn (mkError InvalidRequestErrorClass
                        (VStr "voice and voiceInstructions are mutually exclusive")
                        (VStr "invalid_request") 400 VUndefined)
    = LeanvoxExn (mkError InvalidRequestErrorClass (VStr m)
                          (VStr "invalid_request") 400 VUndefined).
Proof.
  apply (X19_option_errors_are_invalid_requests
           (Tts.mkFullOptions
              (Client.mkOptions "hello" (Some "max") (Some "af_heart") None None None None)
              (Some "A warm, confident female narrator"))).
  right. reflexivity.
Defined.

(** ** The body of a generation request *)

Lemma lookup_assign_same (key : string) (v : value) (fields : list (string * value)) :
  lookup key (Tts.assign key v fields) = v.
Proof.
  induction fields as [|[k x] rest IH]; simpl.
  - rewrite String.eqb_refl. reflexivity.
  - destruct (String.eqb_spec k key) as [->|Hne]; simpl.
    + rewrite String.eqb_refl. reflexivity.
    + destruct (String.eqb_spec k key); [contradiction|exact IH].
Qed.

Lemma lookup_assign_other (key other : string) (v : value)
    (fields : list (string * value)) :
  other <> key -> lookup other (Tts.assign key v fields) = lookup other fields.
Proof.
  intros Hne. induction fields as [|[k x] rest IH]; simpl.
  - destruct (String.eqb_spec key other); [congruence|reflexivity].
  - destruct (String.eqb_spec k key) as [->|Hk]; simpl.
    + destruct (String.eqb_spec key other); [congruence|reflexivity].
    + rewrite IH. reflexivity.
Qed.

Lemma assign_keys (key : string) (v : value) (fields : list (string * value)) :
  NoDup (map fst fields) -> NoDup (map fst (Tts.assign key v fields))
  /\ (forall k, In k (map fst (Tts.assign key v fields))
                <-> k = key \/ In k (map fst fields)).
Proof.
  induction fields as [|[k0 x] rest IH]; simpl; intros Hnd.
  - split; [repeat constructor; auto|]. intros k. intuition.
  - inversion Hnd as [|? ? Hnotin Hrest]. subst.
    destruct (IH Hrest) as (IHnd & IHin).
    destruct (String.eqb_spec k0 key) as [->|Hk]; simpl.
    + split; [assumption|]. intros k. intuition.
    + split.
      * constructor; [|assumption]. rewrite IHin. intros [->|H]; contradiction.
      * intros k. rewrite IHin. intuition.
Qed.

Lemma assign_truthy_keys (key : string) (x : option string)
    (fields : list (string * value)) :
  NoDup (map fst fields) ->
  NoDup (map fst (Tts.assign_truthy key x fields))
  /\ (forall other, other <> key ->
        lookup other (Tts.assign_truthy key x fields) = lookup other fields).
Proof.
  intros Hnd. unfold Tts.assign_truthy. destruct x as [[|ch rest]|]; auto.
  split; [apply assign_keys; assumption|].
  intros other Hne. apply lookup_assign_other. assumption.
Qed.

Lemma assign_defined_keys (key : string) (x : option Q)
    (fields : list (string * value)) :
  NoDup (map fst fields) ->
  NoDup (map fst (Tts.assign_defined key x fields))
  /\ (forall other, other <> key ->
        lookup other (Tts.assign_defined key x fields) = lookup other fields).
Proof.
  intros Hnd. unfold Tts.assign_defined. destruct x as [q|]; auto.
  split; [apply assign_keys; assumption|].
  intros other Hne. apply lookup_assign_other. assumption.
Qed.

(** What the last four statements leave alone, and when they add an
    exaggeration. *)
Lemma common_fields_keeps (options : Tts.Options) (model : string)
    (body : list (string * value)) :
  NoDup (map fst body) ->
  lookup "exaggeration" body = VUndefined ->
  NoDup (map fst (Tts.common_fields options model body))
  /\ (forall other,
         ~ In other ["language"; "format"; "speed"; "exaggeration"] ->
         lookup other (Tts.common_fields options model body) = lookup other body)
  /\ (lookup "exaggeration" (Tts.common_fields options model body) <> VUndefined ->
      model = "pro").
Proof.
  intros Hnd Hex. unfold Tts.common_fields.
  destruct (assign_truthy_keys "language" (Client.language (Tts.common options)) body Hnd)
    as (Hnd1 & Hl1).
  destruct (assign_truthy_keys "format" (Client.format (Tts.common options)) _ Hnd1)
    as (Hnd2 & Hl2).
  destruct (assign_defined_keys "speed" (Client.speed (Tts.common options)) _ Hnd2)
    as (Hnd3 & Hl3).
  destruct (assign_defined_keys "exaggeration"
              (Client.exaggeration (Tts.common options)) _ Hnd3) as (Hnd4 & Hl4).
  assert (Hother : forall other,
             ~ In other ["language"; "format"; "speed"; "exaggeration"] ->
             other <> "language" /\ other <> "format" /\ other <> "speed"
             /\ other <> "exaggeration").
  { intros other Hnot. simpl in Hnot. repeat split; intros ->; apply Hnot; auto. }
  destruct (String.eqb_spec model "pro") as [Hpro|Hpro].
  - split; [assumption|]. split; [|auto].
    intros other Hnot. destruct (Hother other Hnot) as (H1 & H2 & H3 & H4).
    rewrite Hl4, Hl3, Hl2, Hl1 by assumption. reflexivity.
  - split; [assumption|]. split.
    + intros other Hnot. destruct (Hother other Hnot) as (H1 & H2 & H3 & H4).
      rewrite Hl3, Hl2, Hl1 by assumption. reflexivity.
    + rewrite Hl3, Hl2, Hl1, Hex by discriminate. congruence.
Qed.

(** X20: the body that [buildGenerateBody] returns is an object whose
    keys are distinct; it holds the text and the model (the model
    "standard" when none was given); it holds an exaggeration only for
    the model "pro"; for the model "max" it holds the voice instructions
    (1 to 300 characters) and no voice; for any other model it holds no
    voice instructions. *)
Theorem X20_body_contents (options : Tts.Options) (body : value) :
  Tts.buildGenerateBody options = Normal body ->
  exists fields,
    body = VObj fields
    /\ NoDup (map fst fields)
    /\ lookup "text" fields = VStr (Client.text (Tts.common options))
    /\ lookup "model" fields = VStr (Tts.model_of options)
    /\ (lookup "exaggeration" fields <> VUndefined -> Tts.model_of options = "pro")
    /\ (Tts.model_of options = "max" ->
        lookup "voice" fields = VUndefined
        /\ exists instructions,
            Tts.voiceInstructions options = Some instructions
            /\ lookup "voice_instructions" fields = VStr instructions
            /\ 1 <= Z.of_nat (String.length instructions) <= 300)
    /\ (Tts.model_of options <> "max" ->
        lookup "voice_instructions" fields = VUndefined).
Proof.
  unfold Tts.buildGenerateBody.
  set (model := Tts.model_of options).
  set (start := Tts.assign "model" (VStr model)
                           [("text", VStr (Client.text (Tts.common options)))]).
  assert (Hstart : start = [("text", VStr (Client.text (Tts.common options)));
                            ("model", VStr model)]) by reflexivity.
  assert (Hkeys : forall other,
             In other ["text"; "model"; "voice"; "voice_instructions"] ->
             ~ In other ["language"; "format"; "speed"; "exaggeration"]).
  { intros other Hin Hnot. simpl in Hin, Hnot.
    repeat (destruct Hin as [<-|Hin]; [intuition discriminate|]). exact Hin. }
  destruct (String.eqb_spec model "max") as [Hmax|Hmax].
  - destruct (Tts.voiceInstructions options) as [[|ch rest]|] eqn:Hvi;
      try discriminate.
    destruct (Z.ltb_spec 300 (Z.of_nat (String.length (String ch rest))));
      [discriminate|].
    destruct (Auth.truthy (Client.voice (Tts.common options))); [discriminate|].
    intros H'. inversion H'. clear H'.
    destruct (common_fields_keeps options model
                (Tts.assign "voice_instructions" (VStr (String ch rest)) start))
      as (Hnd & Hkeep & Hex).
    { rewrite Hstart. simpl. repeat constructor; simpl; intuition discriminate. }
    { rewrite Hstart. reflexivity. }
    pose proof (Hkeep "text" (Hkeys _ (or_introl eq_refl))) as Htext.
    pose proof (Hkeep "model" (Hkeys _ (or_intror (or_introl eq_refl)))) as Hmodel.
    pose proof (Hkeep "voice"
                  (Hkeys _ (or_intror (or_intror (or_introl eq_refl))))) as Hvoice.
    pose proof (Hkeep "voice_instructions"
                  (Hkeys _ (or_intror (or_intror (or_intror (or_introl eq_refl))))))
      as Hinstr.
    rewrite Hstart in Htext, Hmodel, Hvoice, Hinstr.
    cbn in Htext, Hmodel, Hvoice, Hinstr.
    eexists. split; [reflexivity|].
    split; [exact Hnd|]. split; [exact Htext|]. split; [exact Hmodel|].
    split; [exact Hex|]. split; [|intros Hne; contradiction].
    intros _. split; [exact Hvoice|].
    exists (String ch rest). split; [reflexivity|]. split; [exact Hinstr|].
    change (String.length (String ch rest)) with (S (String.length rest)) in *. lia.
  - destruct (Auth.truthy (Tts.voiceInstructions options)); [discriminate|].
    intros H'. inversion H'. clear H'.
    destruct (assign_truthy_keys "voice" (Client.voice (Tts.common options)) start)
      as (Hnd0 & Hl0).
    { rewrite Hstart. simpl. repeat constructor; simpl; intuition discriminate. }
    destruct (common_fields_keeps options model
                (Tts.assign_truthy "voice" (Client.voice (Tts.common options)) start))
      as (Hnd & Hkeep & Hex).
    { exact Hnd0. }
    { rewrite Hl0 by discriminate. rewrite Hstart. reflexivity. }
    pose proof (Hkeep "text" (Hkeys _ (or_introl eq_refl))) as Htext.
    pose proof (Hkeep "model" (Hkeys _ (or_intror (or_introl eq_refl)))) as Hmodel.
    pose proof (Hkeep "voice_instructions"
                  (Hkeys _ (or_intror (or_intror (or_intror (or_introl eq_refl))))))
      as Hinstr.
    rewrite Hl0 in Htext, Hmodel, Hinstr by discriminate.
    rewrite Hstart in Htext, Hmodel, Hinstr.
    cbn in Htext, Hmodel, Hinstr.
    eexists. split; [reflexivity|].
    split; [exact Hnd|]. split; [exact Htext|]. split; [exact Hmodel|].
    split; [exact Hex|]. split; [intros Heq; contradiction|].
    intros _. exact Hinstr.
Qed.

Lemma X20_witness :
  exists fields,
    VObj [("text", VStr "hello"); ("model", VStr "pro"); ("voice", VStr "af_heart");
          ("language", VStr "en"); ("format", VStr "MP3"); ("speed", VNum (3 # 2));
          ("exaggeration", VNum (4 # 5))]
    = VObj fields
    /\ NoDup (map fst fields)
    /\ lookup "text" fields = VStr (Client.text (Tts.common TtsSamples.hello))
    /\ lookup "model" fields = VStr (Tts.model_of TtsSamples.hello)
    /\ (lookup "exaggeration" fields <> VUndefined -> Tts.model_of TtsSamples.hello = "pro")
    /\ (Tts.model_of TtsSamples.hello = "max" ->
        lookup "voice" fields = VUndefined
        /\ exists instructions,
            Tts.voiceInstructions TtsSamples.hello = Some instructions
            /\ lookup "voice_instructions" fields = VStr instructions
            /\ 1 <= Z.of_nat (String.length instructions) <= 300)
    /\ (Tts.model_of TtsSamples.hello <> "max" ->
        lookup "voice_instructions" fields = VUndefined).
Proof.
  apply (X20_body_contents TtsSamples.hello). reflexivity.
Defined.

(** X21: [buildGenerateBody] returns a body exactly in two cases: the
    model is "max", voice instructions of 1 to 300 characters are given
    and no voice is; or the model is not "max" and no voice instructions
    are given.  It does not look at whether the model is one the service
    knows. *)
Theorem X21_body_is_built_exactly_when (options : Tts.Options) :
  (exists body, Tts.buildGenerateBody options = Normal body)
  <-> ((Tts.model_of options = "max"
        /\ (exists instructions,
               Tts.voiceInstructions options = Some instructions
               /\ 1 <= Z.of_nat (String.length instructions) <= 300)
        /\ Auth.truthy (Client.voice (Tts.common options)) = false)
       \/ (Tts.model_of options <> "max"
           /\ Auth.truthy (Tts.voiceInstructions options) = false)).
Proof.
  unfold Tts.buildGenerateBody.
  destruct (String.eqb_spec (Tts.model_of options) "max") as [Hmax|Hmax].
  - destruct (Tts.voiceInstructions options) as [[|ch rest]|].
    + split; [intros (body & H'); discriminate|].
      intros [(_ & (i & Hi & Hlen) & _)|(Hne & _)]; [|contradiction].
      inversion Hi. subst i. simpl in Hlen. lia.
    + destruct (Z.ltb_spec 300 (Z.of_nat (String.length (String ch rest)))).
      * split; [intros (body & H'); discriminate|].
        intros [(_ & (i & Hi & Hlen) & _)|(Hne & _)]; [|contradiction].
        inversion Hi. subst i. lia.
      * destruct (Auth.truthy (Client.voice (Tts.common options))).
        -- split; [intros (body & H'); discriminate|].
           intros [(_ & _ & Hv)|(Hne & _)]; [discriminate|contradiction].
        -- split; [|eauto]. intros _. left. split; [assumption|]. split; [|reflexivity].
           exists (String ch rest). split; [reflexivity|].
           change (String.length (String ch rest)) with (S (String.length rest)) in *.
           lia.
    + split; [intros (body & H'); discriminate|].
      intros [(_ & (i & Hi & _) & _)|(Hne & _)]; [discriminate|contradiction].
  - destruct (Auth.truthy (Tts.voiceInstructions options)).
    + split; [intros (body & H'); discriminate|].
      intros [(Heq & _)|(_ & Hv)]; [contradiction|discriminate].
    + split; [|eauto]. intros _. right. auto.
Qed.

(** ** Streaming *)

(** X22: [stream] answers in one of two ways.  Either it throws an error
    with status 400 (an [InvalidRequestError] or a
    [StreamingFormatError]) without calling [fetch] or changing anything;
    or the options are valid, the format is "mp3" (or absent), a body was
    built, and [stream] ends as [requestStream] does on
    POST /v1/tts/stream without a timeout of its own, returning the body
    stream of the answer. *)
Theorem X22_stream_checks_before_it_calls server (client : Tts.Leanvox)
    (options : Tts.Options) (w : World) :
  (exists e,
      Tts.stream server client options w = (Abrupt (LeanvoxExn e), w)
      /\ statusCode e = 400
      /\ (class e = InvalidRequestErrorClass \/ class e = StreamingFormatErrorClass))
  \/ (Tts.validateGenerateParams options = Normal tt
      /\ lower (Client.or_default (Client.format (Tts.common options)) "mp3") = "mp3"
      /\ (exists body, Tts.buildGenerateBody options = Normal body)
      /\ Tts.stream server client options w
         = (match fst (requestStream server (Tts.http client) "POST" "/v1/tts/stream"
                                     None w) with
            | Normal answer => Normal (fst answer)
            | Abrupt x => Abrupt x
            end,
            snd (requestStream server (Tts.http client) "POST" "/v1/tts/stream" None w))).
Proof.
  unfold Tts.stream, Tts.lift, bind, throw, ret.
  destruct (Tts.validateGenerateParams options) as [[]|x] eqn:Hvalid.
  - destruct (String.eqb_spec
                (lower (Client.or_default (Client.format (Tts.common options)) "mp3"))
                "mp3") as [Hmp3|Hmp3]; cbn [negb].
    + destruct (Tts.buildGenerateBody options) as [body|x] eqn:Hbody.
      * right. repeat split; eauto.
        destruct (requestStream server (Tts.http client) "POST" "/v1/tts/stream" None w)
          as [[answer|x] w']; reflexivity.
      * left. destruct (buildGenerateBody_error _ _ Hbody) as (m & ->).
        eexists. split; [reflexivity|]. split; [reflexivity|]. left. reflexivity.
    + left. eexists. split; [reflexivity|]. split; [reflexivity|]. right. reflexivity.
  - left. destruct (validateGenerateParams_error _ _ Hvalid) as (m & ->).
    eexists. split; [reflexivity|]. split; [reflexivity|]. left. reflexivity.
Qed.

(** X23: for options that pass validation a format other than "mp3"
    (so "wav", in any case of letters) makes [stream] throw the
    [StreamingFormatError] "Streaming is only supported for MP3 format"
    with the code "streaming_format_error" and status 400, before any
    call of [fetch]. *)
Theorem X23_stream_refuses_wav server (client : Tts.Leanvox) (options : Tts.Options)
    (w : World) (f : string) :
  Tts.validateGenerateParams options = Normal tt ->
  Client.format (Tts.common options) = Some f ->
  lower f <> "mp3" ->
  lower f = "wav"
  /\ Tts.stream server client options w
     = (Abrupt (LeanvoxExn
                  (mkError StreamingFormatErrorClass
                           (VStr "Streaming is only supported for MP3 format")
                           (VStr "streaming_format_error") 400 VUndefined)), w).
Proof.
  intros Hvalid Hformat Hne.
  split.
  - destruct (validateGenerateParams_format options f Hvalid Hformat);
      [contradiction|assumption].
  - unfold Tts.stream, Tts.lift, bind, throw. rewrite Hvalid, Hformat.
    cbn [Client.or_default].
    destruct (String.eqb_spec (lower f) "mp3"); [contradiction|reflexivity].
Qed.

Lemma X23_witness :
  lower "WAV" = "wav"
  /\ Tts.stream (Samples.always Samples.accepted) TtsSamples.default_client
                TtsSamples.as_wav initial
     = (Abrupt (LeanvoxExn
                  (mkError StreamingFormatErrorClass
                           (VStr "Streaming is only supported for MP3 format")
                           (VStr "streaming_format_error") 400 VUndefined)), initial).
Proof.
  apply (X23_stream_refuses_wav (Samples.always Samples.accepted)
           TtsSamples.default_client TtsSamples.as_wav initial "WAV").
  - reflexivity.
  - reflexivity.
  - discriminate.
Defined.

(** ** More cases of the test suite *)

Example stream_returns_the_body :
  fst (Tts.stream (Samples.always Samples.accepted) TtsSamples.default_client
                  TtsSamples.hello initial)
  = Normal "audio".
Proof. reflexivity. Qed.

Example body_for_max :
  Tts.buildGenerateBody TtsSamples.described
  = Normal (VObj [("text", VStr "hello"); ("model", VStr "max");
                  ("voice_instructions", VStr "A warm, confident female narrator")]).
Proof. reflexivity. Qed.

Example constructor_without_key :
  exists e,
    Tts.new_Leanvox (Tts.mkLeanvoxOptions None None None None None) None None
    = Abrupt (LeanvoxExn e)
    /\ class e = AuthenticationErrorClass
    /\ statusCode e = 401.
Proof. eexists. repeat split. Qed.

Example constructor_strips_one_slash :
  Tts.new_Leanvox (Tts.mkLeanvoxOptions (Some "lv_test_abc123")
                                        (Some "https://api.test.com/") None None None)
                  None None
  = Normal (Tts.mkLeanvox (mkClient "https://api.test.com" "lv_test_abc123" 30 2) 5000).
Proof. reflexivity. Qed.

(** * The methods from their first line *)

(** ** The whole method and its loop *)

Lemma for_attempts_ext {A : Type} (body1 body2 : Z -> IO (Step A)) (todo : list Z) :
  (forall attempt w, body1 attempt w = body2 attempt w) ->
  forall w, for_attempts body1 todo w = for_attempts body2 todo w.
Proof.
  intros Hext. induction todo as [|attempt rest IH]; intros w; [reflexivity|].
  cbn [for_attempts]. unfold bind. rewrite Hext.
  destruct (body2 attempt w) as [[[v|]|x] w1]; auto.
Qed.

Section WholeMethods.

Variable server : nat -> Outcome.
Variable new_URL : string -> string -> option string.

Lemma request_invalid_URL c method path body timeoutMs w :
  new_URL path (baseUrl c) = None ->
  Calls.request server new_URL c method path body timeoutMs w
  = (Abrupt (OtherExn "Invalid URL"), w)
  /\ Calls.requestStream server new_URL c method path body timeoutMs w
     = (Abrupt (OtherExn "Invalid URL"), w)
  /\ Calls.upload server new_URL c path timeoutMs w
     = (Abrupt (OtherExn "Invalid URL"), w).
Proof.
  intros Hurl.
  unfold Calls.request, Calls.requestStream, Calls.upload, Calls.build_URL, bind, throw.
  rewrite Hurl. auto.
Qed.

(** With a URL that is built and a body that is serialised, the methods
    are their loops. *)
Lemma request_is_its_loop c method path body timeoutMs href w :
  new_URL path (baseUrl c) = Some href ->
  (forall d, body <> Calls.Refused d) ->
  Calls.request server new_URL c method path body timeoutMs w
  = request server c method path timeoutMs w.
Proof.
  intros Hurl Hbody. unfold Calls.request, Calls.build_URL, request, bind at 1, ret.
  rewrite Hurl. apply for_attempts_ext. intros attempt w1.
  destruct body as [|text|d]; [reflexivity | reflexivity | destruct (Hbody d eq_refl)].
Qed.

Lemma requestStream_is_its_loop c method path body timeoutMs href w :
  new_URL path (baseUrl c) = Some href ->
  (forall d, body <> Calls.Refused d) ->
  Calls.requestStream server new_URL c method path body timeoutMs w
  = requestStream server c method path timeoutMs w.
Proof.
  intros Hurl Hbody.
  unfold Calls.requestStream, Calls.build_URL, requestStream, bind at 1, ret.
  rewrite Hurl. apply for_attempts_ext. intros attempt w1.
  destruct body as [|text|d]; [reflexivity | reflexivity | destruct (Hbody d eq_refl)].
Qed.

Lemma upload_is_its_loop c path timeoutMs href w :
  new_URL path (baseUrl c) = Some href ->
  Calls.upload server new_URL c path timeoutMs w = upload server c path timeoutMs w.
Proof.
  intros Hurl. unfold Calls.upload, Calls.build_URL, upload, bind at 1, ret.
  rewrite Hurl. reflexivity.
Qed.

(** A loop whose every pass fails before it calls [fetch]: it sleeps
    through the budget and ends in a network error, without a call. *)
Lemma refused_loop {A : Type} (c : HTTPClient) (d : string) (body : Z -> IO (Step A)) :
  (forall attempt w, exists w',
      body attempt w = (completion (fault_end c attempt d), w')
      /\ calls w' = calls w) ->
  forall (k n : nat) (w : World),
    (1 <= k)%nat ->
    Z.of_nat (n + k) = maxRetries c + 1 ->
    exists w',
      for_attempts body (map Z.of_nat (seq n k)) w
      = (Abrupt (LeanvoxExn (network_error d)), w')
      /\ calls w' = calls w.
Proof.
  intros Hpass. induction k as [|k IH]; intros n w Hk Hlast; [lia|].
  cbn [seq map for_attempts]. unfold bind.
  destruct (Hpass (Z.of_nat n) w) as (w1 & -> & Hcalls).
  unfold fault_end. destruct (Z.ltb_spec (Z.of_nat n) (maxRetries c)); cbn [completion].
  - destruct (IH (S n) w1) as (w' & Hrun & Hcalls'); [lia|lia|].
    exists w'. rewrite Hrun. split; [reflexivity|congruence].
  - exists w1. auto.
Qed.

Lemma request_pass_refused c method path d timeoutMs :
  forall attempt w, exists w',
    Calls.request_attempt server c method path (Calls.Refused d) timeoutMs attempt w
    = (completion (fault_end c attempt d), w')
    /\ calls w' = calls w.
Proof.
  intros attempt w. unfold Calls.request_attempt, Calls.serialise, fault_end. run_attempt.
  destruct (attempt <? maxRetries c); simpl; eexists; split; reflexivity.
Qed.

Lemma requestStream_pass_refused c method path d timeoutMs :
  forall attempt w, exists w',
    Calls.requestStream_attempt server c method path (Calls.Refused d) timeoutMs attempt w
    = (completion (fault_end c attempt d), w')
    /\ calls w' = calls w.
Proof.
  intros attempt w.
  unfold Calls.requestStream_attempt, Calls.serialise, fault_end. run_attempt.
  destruct (attempt <? maxRetries c); simpl; eexists; split; reflexivity.
Qed.

(** The runs with a body that [JSON.stringify] refuses. *)
Lemma request_refused c method path d timeoutMs href :
  new_URL path (baseUrl c) = Some href ->
  0 <= maxRetries c ->
  (exists w,
      Calls.request server new_URL c method path (Calls.Refused d) timeoutMs initial
      = (Abrupt (LeanvoxExn (network_error d)), w)
      /\ calls w = 0%nat)
  /\ (exists w,
         Calls.requestStream server new_URL c method path (Calls.Refused d) timeoutMs
                             initial
         = (Abrupt (LeanvoxExn (network_error d)), w)
         /\ calls w = 0%nat).
Proof.
  intros Hurl Hpos. split.
  - unfold Calls.request, Calls.build_URL, bind at 1, ret. rewrite Hurl. unfold attempts.
    destruct (refused_loop c d _ (request_pass_refused c method path d
                (match timeoutMs with Some t => t | None => timeout c * 1000 end))
                (Z.to_nat (maxRetries c + 1)) 0 initial) as (w & Hrun & Hcalls);
      [lia|lia|eauto].
  - unfold Calls.requestStream, Calls.build_URL, bind at 1, ret. rewrite Hurl.
    unfold attempts.
    destruct (refused_loop c d _ (requestStream_pass_refused c method path d
                (match timeoutMs with Some t => t | None => 120000 end))
                (Z.to_nat (maxRetries c + 1)) 0 initial) as (w & Hrun & Hcalls);
      [lia|lia|eauto].
Qed.

(** Without a pass, the methods throw what follows the loop. *)
Lemma no_pass c method path body timeoutMs href w :
  new_URL path (baseUrl c) = Some href ->
  maxRetries c < 0 ->
  Calls.request server new_URL c method path body timeoutMs w
  = (Abrupt (LeanvoxExn max_retries_error), w)
  /\ Calls.requestStream server new_URL c method path body timeoutMs w
     = (Abrupt (LeanvoxExn max_retries_error), w)
  /\ Calls.upload server new_URL c path timeoutMs w
     = (Abrupt (LeanvoxExn max_retries_error), w).
Proof.
  intros Hurl Hneg.
  unfold Calls.request, Calls.requestStream, Calls.upload, Calls.build_URL, bind, ret,
    attempts.
  rewrite Hurl. replace (Z.to_nat (maxRetries c + 1)) with 0%nat by lia. auto.
Qed.

End WholeMethods.

(** ** The status of an error, by the answer it comes from *)

Lemma request_end_origin c attempt o e :
  request_end c attempt o = Threw e -> Calls.from_answer o e.
Proof.
  unfold request_end, fault_end, status_end, Calls.from_answer.
  destruct o as [r|d].
  - destruct (ok r).
    + destruct (Http.status r =? 204); [discriminate|].
      destruct (json r) as [v|d]; [discriminate|].
      destruct (attempt <? maxRetries c); [discriminate|].
      intros H. inversion H. exists d. auto.
    + destruct (retryable (Http.status r) && (attempt <? maxRetries c)); [discriminate|].
      intros H. inversion H. split; [reflexivity|apply raiseForStatus_statusCode].
  - destruct (attempt <? maxRetries c); [discriminate|].
    intros H. inversion H. auto.
Qed.

Lemma upload_end_origin c attempt o e :
  upload_end c attempt o = Threw e -> Calls.from_answer o e.
Proof.
  unfold upload_end, fault_end, status_end, Calls.from_answer.
  destruct o as [r|d].
  - destruct (ok r).
    + destruct (json r) as [v|d]; [discriminate|].
      destruct (attempt <? maxRetries c); [discriminate|].
      intros H. inversion H. exists d. auto.
    + destruct (retryable (Http.status r) && (attempt <? maxRetries c)); [discriminate|].
      intros H. inversion H. split; [reflexivity|apply raiseForStatus_statusCode].
  - destruct (attempt <? maxRetries c); [discriminate|].
    intros H. inversion H. auto.
Qed.

Lemma requestStream_end_origin c attempt o e :
  requestStream_end c attempt o = Threw e -> Calls.stream_from_answer o e.
Proof.
  unfold requestStream_end, fault_end, status_end, Calls.stream_from_answer.
  destruct o as [r|d].
  - assert (Herr : (if retryable (Http.status r) && (attempt <? maxRetries c)
                    then Retried (retry_after_or_backoff
                                    (headers_get (headers r) "Retry-After") attempt)
                    else Threw (raiseForStatus (Http.status r) (error_body_value r)))
                   = @Threw (string * Headers) e ->
                   e = raiseForStatus (Http.status r) (error_body_value r)
                   /\ statusCode e = Http.status r).
    { destruct (retryable (Http.status r) && (attempt <? maxRetries c)); [discriminate|].
      intros H. inversion H. split; [reflexivity|apply raiseForStatus_statusCode]. }
    destruct (ok r), (stream r); try exact Herr. discriminate.
  - destruct (attempt <? maxRetries c); [discriminate|].
    intros H. inversion H. auto.
Qed.

(** What a loop throws, by the number of calls it made. *)
Lemma ends_origin {A : Type} (server : nat -> Outcome)
    (end_of : Z -> Outcome -> AttemptEnd A) (c : HTTPClient)
    (from : Outcome -> LeanvoxError -> Prop) (x : Exn) :
  (forall attempt o d, end_of attempt o = Retried d -> attempt < maxRetries c) ->
  (forall attempt o e, end_of attempt o = Threw e -> from o e) ->
  fst (fst (ends server end_of (attempts (maxRetries c)) 0)) = Abrupt x ->
  exists e,
    x = LeanvoxExn e
    /\ match snd (fst (ends server end_of (attempts (maxRetries c)) 0)) with
       | O => e = max_retries_error /\ statusCode e = 0
       | S n => from (server n) e
       end.
Proof.
  intros Hbudget Hfrom. unfold attempts.
  destruct (Z.lt_ge_cases (maxRetries c) 0) as [Hneg|Hpos].
  - replace (Z.to_nat (maxRetries c + 1)) with 0%nat by lia. simpl.
    intros H. inversion H. exists max_retries_error. auto.
  - destruct (ends_inside server end_of (maxRetries c) Hbudget
                (Z.to_nat (maxRetries c + 1)) 0) as (Hprog & Hend); [lia|lia|].
    destruct (ends server end_of (map Z.of_nat (seq 0 (Z.to_nat (maxRetries c + 1)))) 0)
      as [[res n'] ds]. cbn [fst snd] in *.
    intros ->. destruct Hend as (attempt & e & Hthrew & ->).
    exists e. split; [reflexivity|].
    destruct n' as [|n]; [lia|]. exact (Hfrom _ _ _ Hthrew).
Qed.

(** C8, as amended: an error that the executor (unary, streaming or
    multipart) raises from its loop is a typed error whose status is that
    of the answer to the last attempt when the error was classified from
    a response: an error response, or for streaming a success without a
    body.  Its status is 0 in every other case: a rejected [fetch], a
    success whose body cannot be read, a request body that cannot be
    serialised, and the defensive error after the loop.  When the URL
    cannot be built, the method throws the [TypeError] of the platform
    before the loop, which is not a typed error and has no status. *)
Theorem C8_status_by_origin server new_URL c method path body timeoutMs :
  match new_URL path (baseUrl c) with
  | Some _ =>
      Calls.status_by_origin Calls.from_answer server body
        (Calls.request server new_URL c method path body timeoutMs initial)
      /\ Calls.status_by_origin Calls.stream_from_answer server body
           (Calls.requestStream server new_URL c method path body timeoutMs initial)
      /\ Calls.status_by_origin Calls.from_answer server Calls.NoBody
           (Calls.upload server new_URL c path timeoutMs initial)
  | None =>
      Calls.request server new_URL c method path body timeoutMs initial
      = (Abrupt (OtherExn "Invalid URL"), initial)
      /\ Calls.requestStream server new_URL c method path body timeoutMs initial
         = (Abrupt (OtherExn "Invalid URL"), initial)
      /\ Calls.upload server new_URL c path timeoutMs initial
         = (Abrupt (OtherExn "Invalid URL"), initial)
  end.
Proof.
  destruct (new_URL path (baseUrl c)) as [href|] eqn:Hurl;
    [|apply request_invalid_URL; assumption].
  assert (Hupload : Calls.status_by_origin Calls.from_answer server Calls.NoBody
                      (Calls.upload server new_URL c path timeoutMs initial)).
  { rewrite (upload_is_its_loop server new_URL c path timeoutMs href initial Hurl).
    destruct (upload_ends server c path timeoutMs) as (w & Hrun & Hcalls & _).
    unfold Calls.status_by_origin. rewrite Hrun. cbn [fst snd]. rewrite Hcalls.
    destruct (fst (fst (ends server (upload_end c) (attempts (maxRetries c)) 0)))
      as [v|x] eqn:E; [exact I|].
    exact (ends_origin server (upload_end c) c Calls.from_answer x
             (upload_end_budget c) (upload_end_origin c) E). }
  assert (Hserialised :
            (forall d, body <> Calls.Refused d) ->
            Calls.status_by_origin Calls.from_answer server Calls.NoBody
              (Calls.request server new_URL c method path body timeoutMs initial)
            /\ Calls.status_by_origin Calls.stream_from_answer server Calls.NoBody
                 (Calls.requestStream server new_URL c method path body timeoutMs initial)).
  { intros Hbody.
    rewrite (request_is_its_loop server new_URL c method path body timeoutMs href
               initial Hurl Hbody).
    rewrite (requestStream_is_its_loop server new_URL c method path body timeoutMs href
               initial Hurl Hbody).
    destruct (request_ends server c method path timeoutMs) as (wr & Hr & Hcr & _).
    destruct (requestStream_ends server c method path timeoutMs) as (ws & Hs & Hcs & _).
    unfold Calls.status_by_origin. rewrite Hr, Hs. cbn [fst snd]. rewrite Hcr, Hcs.
    split.
    - destruct (fst (fst (ends server (request_end c) (attempts (maxRetries c)) 0)))
        as [v|x] eqn:E; [exact I|].
      exact (ends_origin server (request_end c) c Calls.from_answer x
               (request_end_budget c) (request_end_origin c) E).
    - destruct (fst (fst (ends server (requestStream_end c) (attempts (maxRetries c)) 0)))
        as [v|x] eqn:E; [exact I|].
      exact (ends_origin server (requestStream_end c) c Calls.stream_from_answer x
               (requestStream_end_budget c) (requestStream_end_origin c) E). }
  destruct body as [|text|d].
  - destruct Hserialised as (Hr & Hs); [discriminate|].
    split; [exact Hr|split; [exact Hs|exact Hupload]].
  - destruct Hserialised as (Hr & Hs); [discriminate|].
    split; [exact Hr|split; [exact Hs|exact Hupload]].
  - split; [|split; [|exact Hupload]].
    + unfold Calls.status_by_origin.
      destruct (Z.lt_ge_cases (maxRetries c) 0) as [Hneg|Hpos].
      * destruct (no_pass server new_URL c method path (Calls.Refused d) timeoutMs href
                    initial Hurl Hneg) as (-> & _).
        cbn [fst snd]. exists max_retries_error. auto.
      * destruct (request_refused server new_URL c method path d timeoutMs href Hurl Hpos)
          as ((w & -> & Hcalls) & _).
        cbn [fst snd]. exists (network_error d). auto.
    + unfold Calls.status_by_origin.
      destruct (Z.lt_ge_cases (maxRetries c) 0) as [Hneg|Hpos].
      * destruct (no_pass server new_URL c method path (Calls.Refused d) timeoutMs href
                    initial Hurl Hneg) as (_ & -> & _).
        cbn [fst snd]. exists max_retries_error. auto.
      * destruct (request_refused server new_URL c method path d timeoutMs href Hurl Hpos)
          as (_ & (w & -> & Hcalls)).
        cbn [fst snd]. exists (network_error d). auto.
Qed.

(** C8 as stated fails.  Answered 200 with a body that is not JSON,
    [request] raises an error with status 0, though the response has a
    real status; and with a base URL that cannot be parsed it raises,
    before any attempt, an error that is not a typed error and has no
    status at all. *)
Lemma C8_counterexample :
  (exists w e,
      Calls.request (Samples.always CallSamples.html_200) CallSamples.new_URL
                    (Samples.client 0) "GET" "/v1/voices" Calls.NoBody None initial
      = (Abrupt (LeanvoxExn e), w)
      /\ calls w = 1%nat
      /\ Http.status CallSamples.html_200 = 200
      /\ statusCode e = 0
      /\ statusCode e <> Http.status CallSamples.html_200)
  /\ Calls.request (Samples.always Samples.accepted) CallSamples.new_URL
                   (CallSamples.misconfigured 2) "GET" "/v1/voices" Calls.NoBody None
                   initial
     = (Abrupt (OtherExn "Invalid URL"), initial).
Proof.
  split; [|reflexivity].
  eexists. eexists. split; [cbv; reflexivity|].
  repeat split; try reflexivity. discriminate.
Qed.

(** ** Where the whole methods end *)

Lemma ends_never_fall_through {A : Type} (server : nat -> Outcome)
    (end_of : Z -> Outcome -> AttemptEnd A) (c : HTTPClient) :
  (forall attempt o d, end_of attempt o = Retried d -> attempt < maxRetries c) ->
  (forall attempt o e, end_of attempt o = Threw e -> threw_from o e) ->
  0 <= maxRetries c ->
  (1 <= snd (fst (ends server end_of (attempts (maxRetries c)) 0)))%nat
  /\ fst (fst (ends server end_of (attempts (maxRetries c)) 0))
     <> Abrupt (LeanvoxExn max_retries_error).
Proof.
  intros Hbudget Hthrew Hpos. unfold attempts.
  destruct (ends_inside server end_of (maxRetries c) Hbudget
              (Z.to_nat (maxRetries c + 1)) 0) as (Hprog & Hend); [lia|lia|].
  split; [lia|].
  destruct (fst (fst (ends server end_of
                        (map Z.of_nat (seq 0 (Z.to_nat (maxRetries c + 1)))) 0)))
    as [v|x]; [discriminate|].
  destruct Hend as (attempt & e & Hthrow & ->).
  intros Heq. inversion Heq.
  exact (threw_from_not_max_retries _ _ (Hthrew _ _ _ Hthrow) H0).
Qed.

(** X2: with a retry budget that is not negative and a URL that can be
    built, none of the three methods ever throws the error
    "Max retries exceeded" that follows its loop.  Each calls [fetch] at
    least once, unless the body of the call cannot be serialised: then
    it calls [fetch] not at all and throws a network error with the text
    of that failure. *)
Theorem X2_loop_never_falls_through server new_URL c method path body timeoutMs href :
  0 <= maxRetries c ->
  new_URL path (baseUrl c) = Some href ->
  Calls.ends_in_a_pass body
    (Calls.request server new_URL c method path body timeoutMs initial)
  /\ Calls.ends_in_a_pass body
       (Calls.requestStream server new_URL c method path body timeoutMs initial)
  /\ Calls.ends_in_a_pass Calls.NoBody
       (Calls.upload server new_URL c path timeoutMs initial).
Proof.
  intros Hpos Hurl.
  assert (Hupload : Calls.ends_in_a_pass Calls.NoBody
                      (Calls.upload server new_URL c path timeoutMs initial)).
  { rewrite (upload_is_its_loop server new_URL c path timeoutMs href initial Hurl).
    destruct (upload_ends server c path timeoutMs) as (w & Hrun & Hcalls & _).
    unfold Calls.ends_in_a_pass. rewrite Hrun. cbn [fst snd]. rewrite Hcalls.
    exact (ends_never_fall_through server (upload_end c) c (upload_end_budget c)
             (upload_end_threw c) Hpos). }
  assert (Hserialised :
            (forall d, body <> Calls.Refused d) ->
            Calls.ends_in_a_pass Calls.NoBody
              (Calls.request server new_URL c method path body timeoutMs initial)
            /\ Calls.ends_in_a_pass Calls.NoBody
                 (Calls.requestStream server new_URL c method path body timeoutMs initial)).
  { intros Hbody.
    rewrite (request_is_its_loop server new_URL c method path body timeoutMs href
               initial Hurl Hbody).
    rewrite (requestStream_is_its_loop server new_URL c method path body timeoutMs href
               initial Hurl Hbody).
    destruct (request_ends server c method path timeoutMs) as (wr & Hr & Hcr & _).
    destruct (requestStream_ends server c method path timeoutMs) as (ws & Hs & Hcs & _).
    unfold Calls.ends_in_a_pass. rewrite Hr, Hs. cbn [fst snd]. rewrite Hcr, Hcs.
    split.
    - exact (ends_never_fall_through server (request_end c) c (request_end_budget c)
               (request_end_threw c) Hpos).
    - exact (ends_never_fall_through server (requestStream_end c) c
               (requestStream_end_budget c) (requestStream_end_threw c) Hpos). }
  destruct body as [|text|d].
  - destruct Hserialised as (Hr & Hs); [discriminate|].
    split; [exact Hr|split; [exact Hs|exact Hupload]].
  - destruct Hserialised as (Hr & Hs); [discriminate|].
    split; [exact Hr|split; [exact Hs|exact Hupload]].
  - destruct (request_refused server new_URL c method path d timeoutMs href Hurl Hpos)
      as ((wr & Hr & Hcr) & (ws & Hs & Hcs)).
    unfold Calls.ends_in_a_pass at 1 2. rewrite Hr, Hs. cbn [fst snd]. auto.
Qed.

Lemma X2_witness :
  Calls.ends_in_a_pass (Calls.Refused "Converting circular structure to JSON")
    (Calls.request Samples.flaky CallSamples.new_URL (Samples.client 2) "POST" "/v1/test"
                   (Calls.Refused "Converting circular structure to JSON") None initial)
  /\ Calls.ends_in_a_pass (Calls.Refused "Converting circular structure to JSON")
       (Calls.requestStream Samples.flaky CallSamples.new_URL (Samples.client 2) "POST"
                            "/v1/test"
                            (Calls.Refused "Converting circular structure to JSON")
                            None initial)
  /\ Calls.ends_in_a_pass Calls.NoBody
       (Calls.upload Samples.flaky CallSamples.new_URL (Samples.client 2) "/v1/test"
                     None initial).
Proof.
  apply (X2_loop_never_falls_through Samples.flaky CallSamples.new_URL (Samples.client 2)
           "POST" "/v1/test" (Calls.Refused "Converting circular structure to JSON")
           None "https://api.leanvox.com/v1/test").
  - simpl. lia.
  - reflexivity.
Defined.

(** X3: with a negative retry budget none of the three methods calls
    [fetch] or changes anything: each throws at once, "Max retries
    exceeded" (code [max_retries], status 0) when the URL can be built,
    and the [TypeError] of the URL constructor when it cannot. *)
Theorem X3_negative_budget_makes_no_call server new_URL c method path body timeoutMs
    (w : World) :
  maxRetries c < 0 ->
  let thrown :=
    match new_URL path (baseUrl c) with
    | Some _ => LeanvoxExn max_retries_error
    | None => OtherExn "Invalid URL"
    end in
  Calls.request server new_URL c method path body timeoutMs w = (Abrupt thrown, w)
  /\ Calls.requestStream server new_URL c method path body timeoutMs w
     = (Abrupt thrown, w)
  /\ Calls.upload server new_URL c path timeoutMs w = (Abrupt thrown, w).
Proof.
  intros Hneg. destruct (new_URL path (baseUrl c)) as [href|] eqn:Hurl; cbn zeta.
  - exact (no_pass server new_URL c method path body timeoutMs href w Hurl Hneg).
  - exact (request_invalid_URL server new_URL c method path body timeoutMs w Hurl).
Qed.

Lemma X3_witness :
  Calls.request (Samples.always Samples.accepted) CallSamples.new_URL
                (Samples.client (-1)) "GET" "/v1/test" Calls.NoBody None initial
  = (Abrupt (LeanvoxExn max_retries_error), initial)
  /\ Calls.requestStream (Samples.always Samples.accepted) CallSamples.new_URL
                         (Samples.client (-1)) "GET" "/v1/test" Calls.NoBody None initial
     = (Abrupt (LeanvoxExn max_retries_error), initial)
  /\ Calls.upload (Samples.always Samples.accepted) CallSamples.new_URL
                  (Samples.client (-1)) "/v1/test" None initial
     = (Abrupt (LeanvoxExn max_retries_error), initial).
Proof.
  apply (X3_negative_budget_makes_no_call (Samples.always Samples.accepted)
           CallSamples.new_URL (Samples.client (-1)) "GET" "/v1/test" Calls.NoBody None
           initial).
  simpl. lia.
Defined.

(** ** What the classifier takes from the body *)

(** X11: the error built by [raiseForStatus] keeps the body it was
    given, and its code is [body.error.code], or "unknown" when that is
    [undefined] or [null]: the default codes of the error classes (such
    as "invalid_api_key") are never used by it. *)
Theorem X11_classifier_extraction (status : Z) (body : value) :
  Errors.body (raiseForStatus status body) = body
  /\ code (raiseForStatus status body)
     = nullish (opt_get (opt_get body "error") "code") (VStr "unknown")
  /\ code (raiseForStatus status body) <> VUndefined
  /\ code (raiseForStatus status body) <> VNull.
Proof.
  split; [apply raiseForStatus_body|].
  rewrite raiseForStatus_code. unfold Spec.error_field.
  split; [reflexivity|].
  destruct (opt_get (opt_get body "error") "code"); simpl; split; discriminate.
Qed.

(** ** Validation on JavaScript numbers *)

Lemma number_speed_check (speed : option Number.number) :
  match speed with
  | Some s => Number.lt s (Number.Finite (1 # 2)) || Number.gt s (Number.Finite 2)
  | None => false
  end = false
  <-> (forall s, speed = Some s ->
         s = Number.NaN
         \/ exists q, s = Number.Finite q /\ (1 # 2 <= q)%Q /\ (q <= 2)%Q).
Proof.
  destruct speed as [[q| |negative]|].
  - unfold Number.gt, Number.lt. rewrite orb_false_iff, !negb_false_iff, !Qle_bool_iff.
    split.
    + intros H s Heq. inversion Heq. right. exists q. auto.
    + intros H. destruct (H _ eq_refl) as [Hnan|(q' & Heq & Hq)]; [discriminate|].
      inversion Heq. subst. exact Hq.
  - split; [|reflexivity]. intros _ s Heq. inversion Heq. auto.
  - split.
    + destruct negative; discriminate.
    + intros H. destruct (H _ eq_refl) as [Hnan|(q' & Heq & _)]; discriminate.
  - split; [discriminate|reflexivity].
Qed.

Lemma number_exaggeration_check (exaggeration : option Number.number) (model : string) :
  match exaggeration with
  | Some e => Number.differs e (Number.Finite (1 # 2)) && String.eqb model "standard"
  | None => false
  end = false
  <-> (forall e, exaggeration = Some e -> model = "standard" ->
         exists q, e = Number.Finite q /\ (q == 1 # 2)%Q).
Proof.
  destruct exaggeration as [e|]; [|split; [discriminate|reflexivity]].
  rewrite andb_false_iff, String.eqb_neq. split.
  - intros [H|H] e0 Heq Hmodel; [|contradiction]. inversion Heq. subst e0.
    destruct e as [q| |negative]; simpl in H; try discriminate.
    apply negb_false_iff, Qeq_bool_iff in H. eauto.
  - intros H. destruct (String.eqb_spec model "standard") as [Hm|Hm]; [|auto].
    left. destruct (H e eq_refl Hm) as (q & -> & Hq). simpl.
    apply negb_false_iff, Qeq_bool_iff. exact Hq.
Qed.

(** X18: [validateGenerateParams] accepts the options exactly when the
    text is not empty and has at most 10000 characters, the model (taken
    as "standard" when absent) is "standard", "pro" or "max", a speed
    that is given is [NaN] or lies between 0.5 and 2, an exaggeration
    given with the standard model is 0.5, and a format that is given is
    "mp3" or "wav" up to the case of its letters. *)
Theorem X18_validation_accepts_exactly (options : Validation.GenerateOptions) :
  Validation.validateGenerateParams options = Normal tt
  <-> (Validation.text options <> ""
       /\ Z.of_nat (String.length (Validation.text options)) <= 10000
       /\ In (Client.or_default (Validation.model options) "standard")
             ["standard"; "pro"; "max"]
       /\ (forall s, Validation.speed options = Some s ->
             s = Number.NaN
             \/ exists q, s = Number.Finite q /\ (1 # 2 <= q)%Q /\ (q <= 2)%Q)
       /\ (forall e, Validation.exaggeration options = Some e ->
             Client.or_default (Validation.model options) "standard" = "standard" ->
             exists q, e = Number.Finite q /\ (q == 1 # 2)%Q)
       /\ (forall f, Validation.format options = Some f ->
             lower f = "mp3" \/ lower f = "wav")).
Proof.
  unfold Validation.validateGenerateParams.
  set (model := Client.or_default (Validation.model options) "standard").
  rewrite <- text_check, <- number_speed_check, <- number_exaggeration_check.
  rewrite <- (format_check (Validation.format options)
                ("format must be " ++ Tts.quoted "mp3" ++ " or " ++ Tts.quoted "wav")).
  destruct (negb (Auth.truthy (Some (Validation.text options)))
            || (Z.of_nat (String.length (Validation.text options)) =? 0));
    [split; [discriminate | intros (H & _); discriminate]|].
  destruct (Z.ltb_spec 10000 (Z.of_nat (String.length (Validation.text options))));
    [split; [discriminate | intros (_ & H' & _); lia]|].
  destruct (negb (String.eqb model "standard") && negb (String.eqb model "pro")
            && negb (String.eqb model "max")) eqn:Hmodel.
  - split; [discriminate|]. intros (_ & _ & Hin & _).
    simpl in Hin. destruct Hin as [<-|[<-|[<-|[]]]]; discriminate.
  - assert (Hin : In model ["standard"; "pro"; "max"]).
    { simpl. destruct (String.eqb_spec model "standard"); [auto|].
      destruct (String.eqb_spec model "pro"); [auto|].
      destruct (String.eqb_spec model "max"); [auto|]. discriminate. }
    destruct (match Validation.speed options with
              | Some s => Number.lt s (Number.Finite (1 # 2))
                          || Number.gt s (Number.Finite 2)
              | None => false
              end);
      [split; [discriminate | intros (_ & _ & _ & H' & _); discriminate]|].
    destruct (match Validation.exaggeration options with
              | Some e => Number.differs e (Number.Finite (1 # 2))
                          && String.eqb model "standard"
              | None => false
              end);
      [split; [discriminate | intros (_ & _ & _ & _ & H' & _); discriminate]|].
    split.
    + intros H'. repeat split; auto.
    + intros (_ & _ & _ & _ & _ & H'). exact H'.
Qed.

(** On finite numbers the two readings of [validateGenerateParams]
    agree. *)
Lemma validation_on_finite_numbers (options : Tts.Options) :
  Validation.validateGenerateParams (with_finite_numbers options)
  = Tts.validateGenerateParams options.
Proof.
  unfold Validation.validateGenerateParams, Tts.validateGenerateParams,
    with_finite_numbers, Tts.model_of, Tts.is_model.
  cbn [Validation.text Validation.model Validation.speed Validation.exaggeration
       Validation.format].
  destruct (negb (Auth.truthy (Some (Client.text (Tts.common options))))
            || (Z.of_nat (String.length (Client.text (Tts.common options))) =? 0));
    [reflexivity|].
  destruct (10000 <? Z.of_nat (String.length (Client.text (Tts.common options))));
    [reflexivity|].
  rewrite !negb_orb.
  destruct (negb (String.eqb (Client.or_default (Client.model (Tts.common options))
                                                "standard") "standard")
            && negb (String.eqb (Client.or_default (Client.model (Tts.common options))
                                                   "standard") "pro")
            && negb (String.eqb (Client.or_default (Client.model (Tts.common options))
                                                   "standard") "max"));
    [reflexivity|].
  destruct (Client.speed (Tts.common options)) as [s|];
    destruct (Client.exaggeration (Tts.common options)) as [e|]; reflexivity.
Qed.

(** ** Cases of the whole methods and of validation *)

Example refused_body_is_never_sent :
  exists w,
    Calls.request (Samples.always Samples.accepted) CallSamples.new_URL
                  (Samples.client 2) "POST" "/v1/tts/generate"
                  (Calls.Refused "Converting circular structure to JSON") None initial
    = (Abrupt (LeanvoxExn
                 (mkError LeanvoxErrorClass
                          (VStr "Network error: Converting circular structure to JSON")
                          (VStr "network_error") 0 VUndefined)), w)
    /\ calls w = 0%nat
    /\ sleeps (log w) = [FixedDelay 1000; FixedDelay 2000]
    /\ timer false (log w) = Some false.
Proof. eexists. split; [cbv; reflexivity|]. repeat split. Qed.

Example speed_NaN_is_accepted :
  Validation.validateGenerateParams
    (Validation.mkGenerateOptions "hi" None None None None None (Some Number.NaN) None)
  = Normal tt.
Proof. reflexivity. Qed.

Example speed_infinite_is_refused :
  Validation.validateGenerateParams
    (Validation.mkGenerateOptions "hi" None None None None None
                                  (Some (Number.Infinity false)) None)
  = Tts.invalid "speed must be between 0.5 and 2.0".
Proof. reflexivity. Qed.

Example exaggeration_NaN_is_refused_on_standard :
  Validation.validateGenerateParams
    (Validation.mkGenerateOptions "hi" None None None None None None (Some Number.NaN))
  = Tts.invalid "exaggeration is only supported on the pro model".
Proof. reflexivity. Qed.
